(** * Radiative processes for black holes: the [Radiating] emission models

    A shallow embedding of the classes of [3.synchrotron.ipynb]: the
    abstract base class [Radiating] (constructor, Planck function [Bnu],
    abstract hooks [jnu_bremss] and [jnu_sync]) and its subclasses [Dummy]
    and [RL].

    Modelling choices.
    - A numpy value is a real number or one of the IEEE-754 special values
      (infinities, NaN).  Arithmetic on the real part is exact: rounding,
      overflow and underflow of binary64 are outside this model, and zero is
      unsigned.  Division by zero, [inf - inf] and the like produce the
      special values numpy produces.  What is proved of the classes in this
      model is what holds of the code up to the rounding of its operations,
      as long as no intermediate value leaves the range of binary64 and the
      exponential is not rounded to 1.
    - Where the code leaves that regime (the exponential rounds to 1.0,
      underflows to 0.0 or overflows to inf, or a product overflows), module
      [Binary64] evaluates the same chains of operations on binary64 numbers
      with the IEEE-754 operations.
    - A frequency input is a 0-d value or a 1-d array; binary operations
      broadcast as numpy does for these two shapes.
    - Physical quantities are numbers in one coherent unit system; the
      unit bookkeeping of astropy is not modelled.
    - An instance is its attribute dictionary; a method is a state-passing
      function over it that may raise.
    - The astropy constants ([c.h], [c.k_B], ...) are a record the
      development is parametrised by. *)

From Stdlib Require Import Floats.
From Stdlib Require Import Reals Lra Lia.
From stdpp Require Import base option list gmap strings.

Set Warnings "-inexact-float".

Open Scope R_scope.

(** ** Numbers with IEEE special values *)

Inductive xreal : Type :=
| Num (r : R)
| Inf (negative : bool)
| NaN.

Definition Rneg (r : R) : bool := if Rlt_dec r 0 then true else false.
Definition Rzero (r : R) : bool := if Req_dec_T r 0 then true else false.

Definition xneg (a : xreal) : xreal :=
  match a with
  | Num r => Num (- r)
  | Inf s => Inf (negb s)
  | NaN => NaN
  end.

Definition xadd (a b : xreal) : xreal :=
  match a, b with
  | Num x, Num y => Num (x + y)
  | Num _, Inf s | Inf s, Num _ => Inf s
  | Inf s, Inf t => if Bool.eqb s t then Inf s else NaN
  | _, _ => NaN
  end.

Definition xsub (a b : xreal) : xreal := xadd a (xneg b).

Definition xmul (a b : xreal) : xreal :=
  match a, b with
  | Num x, Num y => Num (x * y)
  | Num x, Inf s | Inf s, Num x =>
      if Rzero x then NaN else Inf (xorb s (Rneg x))
  | Inf s, Inf t => Inf (xorb s t)
  | _, _ => NaN
  end.

Definition xdiv (a b : xreal) : xreal :=
  match a, b with
  | Num x, Num y =>
      if Rzero y then (if Rzero x then NaN else Inf (Rneg x))
      else Num (x / y)
  | Num _, Inf _ => Num 0
  | Inf s, Num y => Inf (xorb s (Rneg y))
  | _, _ => NaN
  end.

Definition xexp (a : xreal) : xreal :=
  match a with
  | Num x => Num (exp x)
  | Inf false => Inf false
  | Inf true => Num 0
  | NaN => NaN
  end.

Definition xsqrt (a : xreal) : xreal :=
  match a with
  | Num x => if Rneg x then NaN else Num (sqrt x)
  | Inf false => Inf false
  | _ => NaN
  end.

Definition xpow (a : xreal) (n : nat) : xreal :=
  match n with
  | O => Num 1
  | S _ =>
      match a with
      | Num x => Num (x ^ n)
      | Inf s => Inf (s && Nat.odd n)
      | NaN => NaN
      end
  end.

(** ** Arrays, Python values, exceptions *)

Inductive ndarray : Type :=
| Scalar (v : xreal)
| Array (l : list xreal).

Inductive pyobj : Type :=
| PyNone
| PyNum (a : ndarray).

Inductive exn : Type := TypeError | ValueError | AttributeError.

Inductive res (A : Type) : Type :=
| Ok (a : A)
| Raise (e : exn).
Arguments Ok {A} a.
Arguments Raise {A} e.

Definition res_bind {A B} (m : res A) (k : A -> res B) : res B :=
  match m with
  | Ok a => k a
  | Raise e => Raise e
  end.

(** The shape of a value: [None] for a 0-d value, [Some n] for a 1-d array
    of [n] elements. *)
Definition shape (a : ndarray) : option nat :=
  match a with
  | Scalar _ => None
  | Array l => Some (length l)
  end.

Definition ufunc1 (op : xreal -> xreal) (a : ndarray) : ndarray :=
  match a with
  | Scalar v => Scalar (op v)
  | Array l => Array (map op l)
  end.

(** numpy broadcasting of a binary operation over 0-d and 1-d operands: two
    arrays must have the same length unless one of them has length 1. *)
Definition broadcast2 (op : xreal -> xreal -> xreal) (a b : ndarray)
  : res ndarray :=
  match a, b with
  | Scalar x, Scalar y => Ok (Scalar (op x y))
  | Scalar x, Array l => Ok (Array (map (op x) l))
  | Array l, Scalar y => Ok (Array (map (fun x => op x y) l))
  | Array l1, Array l2 =>
      if Nat.eqb (length l1) (length l2) then Ok (Array (zip_with op l1 l2))
      else match l1, l2 with
           | [x], _ => Ok (Array (map (op x) l2))
           | _, [y] => Ok (Array (map (fun x => op x y) l1))
           | _, _ => Raise ValueError
           end
  end.

(** ** Expressions and statements of a method body *)

(** The instance dictionary of [self]. *)
Abbreviation attrs := (gmap string pyobj).

(** An expression reads [self] and yields a value or raises. *)
Definition expr : Type := attrs -> res pyobj.

(** A method body threads [self] and yields a value or raises. *)
Definition Py (A : Type) : Type := attrs -> res A * attrs.

Definition ret {A} (a : A) : Py A := fun self => (Ok a, self).

Definition bind {A B} (m : Py A) (k : A -> Py B) : Py B :=
  fun self =>
    match m self with
    | (Ok a, self') => k a self'
    | (Raise e, self') => (Raise e, self')
    end.

Definition eval (e : expr) : Py pyobj := fun self => (e self, self).

Definition setattr (name : string) (v : pyobj) : Py unit :=
  fun self => (Ok tt, <[name := v]> self).

Definition raise {A} (e : exn) : Py A := fun self => (Raise e, self).

Notation "'let!' x ':=' m 'in' k" := (bind m (fun x => k))
  (at level 10, x name, m at level 100, k at level 200).
Notation "'do!' m 'in' k" := (bind m (fun _ => k))
  (at level 10, m at level 100, k at level 200).

Definition val (v : pyobj) : expr := fun _ => Ok v.
Definition lit (r : R) : expr := val (PyNum (Scalar (Num r))).

Definition getattr (name : string) : expr :=
  fun self =>
    match self !! name with
    | Some v => Ok v
    | None => Raise AttributeError
    end.

Definition binop (op : xreal -> xreal -> xreal) (a b : expr) : expr :=
  fun self =>
    res_bind (a self) (fun x =>
    res_bind (b self) (fun y =>
      match x, y with
      | PyNum u, PyNum v => res_bind (broadcast2 op u v) (fun w => Ok (PyNum w))
      | _, _ => Raise TypeError
      end)).

Definition unop (op : xreal -> xreal) (a : expr) : expr :=
  fun self =>
    res_bind (a self) (fun x =>
      match x with
      | PyNum u => Ok (PyNum (ufunc1 op u))
      | PyNone => Raise TypeError
      end).

Definition py_pow (a : expr) (n : nat) : expr := unop (fun v => xpow v n) a.
Definition np_exp : expr -> expr := unop xexp.
Definition np_sqrt : expr -> expr := unop xsqrt.

Declare Scope py_scope.
Delimit Scope py_scope with py.
Bind Scope py_scope with expr.
Notation "a * b" := (binop xmul a b) : py_scope.
Notation "a / b" := (binop xdiv a b) : py_scope.
Notation "a + b" := (binop xadd a b) : py_scope.
Notation "a - b" := (binop xsub a b) : py_scope.
Notation "- a" := (unop xneg a) : py_scope.
Notation "a ** n" := (py_pow a n) (at level 30, right associativity) : py_scope.

(** ** Classes with abstract methods *)

(** A function object: its [__isabstractmethod__] flag (set by the
    [@abstractmethod] decorator) and its behaviour on the arguments after
    [self]. *)
Record function : Type := Function {
  isabstractmethod : bool;
  call : list pyobj -> Py pyobj
}.

(** A class: [ABC] itself, or a class statement with its name, its base
    class and the functions defined in its body, in order. *)
Inductive class : Type :=
| ABC
| Class (name : string) (base : class) (namespace : list (string * function)).

Fixpoint assoc {A} (name : string) (ns : list (string * A)) : option A :=
  match ns with
  | [] => None
  | (n, f) :: ns' => if String.eqb n name then Some f else assoc name ns'
  end.

(** Attribute lookup along the method resolution order. *)
Fixpoint class_getattr (cls : class) (name : string) : option function :=
  match cls with
  | ABC => None
  | Class _ base ns =>
      match assoc name ns with
      | Some f => Some f
      | None => class_getattr base name
      end
  end.

Definition is_abstract (cls : class) (name : string) : bool :=
  match class_getattr cls name with
  | Some f => isabstractmethod f
  | None => false
  end.

(** [__abstractmethods__] as [ABCMeta] computes it when the class is
    created: the abstract functions of the class body, then the abstract
    names of the base that still resolve to an abstract function. *)
Fixpoint abstractmethods (cls : class) : list string :=
  match cls with
  | ABC => []
  | Class _ base ns =>
      map fst (List.filter (fun nf => isabstractmethod (snd nf)) ns)
      ++ List.filter (is_abstract cls) (abstractmethods base)
  end.

(** An instance: its class and its attribute dictionary. *)
Record object : Type := Object {
  ob_type : class;
  ob_dict : attrs
}.

(** Calling a class: a class with abstract methods left cannot be
    instantiated; otherwise a fresh instance is initialised by [__init__]. *)
Definition instantiate (cls : class) (args : list pyobj) : res object :=
  match abstractmethods cls with
  | _ :: _ => Raise TypeError
  | [] =>
      match class_getattr cls "__init__" with
      | Some init =>
          match call init args ∅ with
          | (Ok _, d) => Ok (Object cls d)
          | (Raise e, _) => Raise e
          end
      | None =>
          match args with
          | [] => Ok (Object cls ∅)
          | _ :: _ => Raise TypeError
          end
      end
  end.

(** Calling the method [name] of [obj]: the result and the instance after
    the call. *)
Definition invoke (obj : object) (name : string) (args : list pyobj)
  : res pyobj * object :=
  match class_getattr (ob_type obj) name with
  | Some f =>
      let (r, d) := call f args (ob_dict obj) in (r, Object (ob_type obj) d)
  | None => (Raise AttributeError, obj)
  end.

(** A function of one argument after [self]. *)
Definition def1 (body : pyobj -> Py pyobj) : list pyobj -> Py pyobj :=
  fun args =>
    match args with
    | [nu] => body nu
    | _ => raise TypeError
    end.

Definition abstractmethod (f : list pyobj -> Py pyobj) : function :=
  Function true f.
Definition method (f : list pyobj -> Py pyobj) : function :=
  Function false f.

(** The body [pass]. *)
Definition pass : Py pyobj := ret PyNone.

(** ** The astropy constants *)

Record constants : Type := Constants {
  c_h : R;        (* Planck constant *)
  c_k_B : R;      (* Boltzmann constant *)
  c_c : R;        (* speed of light *)
  c_e_gauss : R;  (* electron charge, Gaussian units *)
  c_m_e : R;      (* electron mass *)
  c_m_p : R       (* proton mass *)
}.

Definition physical (K : constants) : Prop :=
  0 < c_h K /\ 0 < c_k_B K /\ 0 < c_c K /\ 0 < c_e_gauss K /\
  0 < c_m_e K /\ 0 < c_m_p K.

(** CODATA 2018 values in CGS units. *)
Definition codata2018 : constants :=
  {| c_h := 6.62607015e-27;
     c_k_B := 1.380649e-16;
     c_c := 29979245800;
     c_e_gauss := 4.803204712570263e-10;
     c_m_e := 9.1093837015e-28;
     c_m_p := 1.67262192369e-24 |}.

(** ** [class Radiating(ABC)] *)

Module Radiating.
Section WithConstants.
Variable K : constants.
Local Abbreviation h := (lit (c_h K)).
Local Abbreviation k_B := (lit (c_k_B K)).
Local Abbreviation c := (lit (c_c K)).

Definition __init__ (rho T cos_theta B Z : pyobj) : Py pyobj :=
  do! setattr "rho" rho in
  do! setattr "T" T in
  do! setattr "B" B in
  do! setattr "cos" cos_theta in
  do! setattr "Z" Z in
  ret PyNone.

(** The signature [(self, rho, T, cos_theta, B, Z=1)]. *)
Definition __init__sig (args : list pyobj) : Py pyobj :=
  match args with
  | [rho; T; cos_theta; B] =>
      __init__ rho T cos_theta B (PyNum (Scalar (Num 1)))
  | [rho; T; cos_theta; B; Z] => __init__ rho T cos_theta B Z
  | _ => raise TypeError
  end.

Definition Bnu (nu : pyobj) : Py pyobj :=
  let! x := eval ((h * val nu) / (k_B * getattr "T")) in
  let! f := eval (lit 2 * h * (val nu * val nu * val nu) / (c * c)) in
  eval (val f / (np_exp (val x) - lit 1)).

Definition jnu_bremss (nu : pyobj) : Py pyobj := pass.

Definition jnu_sync (nu : pyobj) : Py pyobj := pass.

Definition cls : class :=
  Class "Radiating" ABC
    [ ("__init__", method __init__sig);
      ("Bnu", method (def1 Bnu));
      ("jnu_bremss", abstractmethod (def1 jnu_bremss));
      ("jnu_sync", abstractmethod (def1 jnu_sync)) ].
End WithConstants.
End Radiating.

(** ** [class Dummy(Radiating)] *)

Module Dummy.
Section WithConstants.
Variable K : constants.

Definition jnu_bremss (nu : pyobj) : Py pyobj := pass.

Definition jnu_sync (nu : pyobj) : Py pyobj := pass.

Definition cls : class :=
  Class "Dummy" (Radiating.cls K)
    [ ("jnu_bremss", method (def1 jnu_bremss));
      ("jnu_sync", method (def1 jnu_sync)) ].
End WithConstants.
End Dummy.

(** ** [class RL(Radiating)] *)

Module RL.
Section WithConstants.
Variable K : constants.
Local Abbreviation h := (lit (c_h K)).
Local Abbreviation k_B := (lit (c_k_B K)).
Local Abbreviation c := (lit (c_c K)).
Local Abbreviation e_gauss := (lit (c_e_gauss K)).
Local Abbreviation m_e := (lit (c_m_e K)).
Local Abbreviation m_p := (lit (c_m_p K)).
Local Abbreviation pi := (lit PI).

Definition jnu_bremss (nu : pyobj) : Py pyobj :=
  let! f := eval ((lit 32 * pi * e_gauss ** 6) / (lit 3 * m_e * c ** 3)
                  * np_sqrt (lit 2 * pi / (lit 3 * k_B * m_e))) in
  let! ne := eval (getattr "rho" / (m_e + m_p)) in
  let ni := ne in
  eval (val f * np_sqrt (getattr "T") * getattr "Z" * getattr "Z"
        * val ne * val ni
        * np_exp (- h * val nu / (k_B * getattr "T"))).

Definition jnu_sync (nu : pyobj) : Py pyobj := pass.

Definition cls : class :=
  Class "RL" (Radiating.cls K)
    [ ("jnu_bremss", method (def1 jnu_bremss));
      ("jnu_sync", method (def1 jnu_sync)) ].
End WithConstants.
End RL.

(** ** Frequency inputs and the values the methods compute *)

(** A frequency input: one real frequency or a sequence of them. *)
Inductive frequencies : Type :=
| One (nu : R)
| Many (nus : list R).

Definition to_ndarray (nu : frequencies) : ndarray :=
  match nu with
  | One v => Scalar (Num v)
  | Many l => Array (map Num l)
  end.

(** The elementwise application of [F] over a frequency input. *)
Definition elementwise (F : R -> xreal) (nu : frequencies) : ndarray :=
  match nu with
  | One v => Scalar (F v)
  | Many l => Array (map F l)
  end.

(** A property of every frequency of an input. *)
Definition all_frequencies (P : R -> Prop) (nu : frequencies) : Prop :=
  match nu with
  | One v => P v
  | Many l => Forall P l
  end.

(** A real number as a Python value. *)
Definition num (r : R) : pyobj := PyNum (Scalar (Num r)).

(** The attribute dictionary [Radiating.__init__] leaves behind. *)
Definition init_dict (rho T cos_theta B Z : pyobj) : attrs :=
  <["Z" := Z]> (<["cos" := cos_theta]> (<["B" := B]> (<["T" := T]>
    (<["rho" := rho]> ∅)))).

(** A method body that leaves [self] as it found it. *)
Definition readonly {A} (m : Py A) : Prop := forall self, snd (m self) = self.

Section Kernels.
Variable K : constants.

(** The chain of operations of [Radiating.Bnu] at one frequency. *)
Definition Bnu_at (T nu : R) : xreal :=
  let x := xdiv (xmul (Num (c_h K)) (Num nu)) (xmul (Num (c_k_B K)) (Num T)) in
  let f := xdiv (xmul (xmul (Num 2) (Num (c_h K)))
                      (xmul (xmul (Num nu) (Num nu)) (Num nu)))
                (xmul (Num (c_c K)) (Num (c_c K))) in
  xdiv f (xsub (xexp x) (Num 1)).

(** The chain of operations of [RL.jnu_bremss] at one frequency. *)
Definition jnu_bremss_at (rho T Z nu : R) : xreal :=
  let f :=
    xmul (xdiv (xmul (xmul (Num 32) (Num PI)) (xpow (Num (c_e_gauss K)) 6))
               (xmul (xmul (Num 3) (Num (c_m_e K))) (xpow (Num (c_c K)) 3)))
         (xsqrt (xdiv (xmul (Num 2) (Num PI))
                      (xmul (xmul (Num 3) (Num (c_k_B K))) (Num (c_m_e K))))) in
  let ne := xdiv (Num rho) (xadd (Num (c_m_e K)) (Num (c_m_p K))) in
  let ni := ne in
  xmul (xmul (xmul (xmul (xmul (xmul f (xsqrt (Num T))) (Num Z)) (Num Z)) ne) ni)
       (xexp (xdiv (xmul (xneg (Num (c_h K))) (Num nu))
                   (xmul (Num (c_k_B K)) (Num T)))).
End Kernels.

(** ** The formulas of the specification *)

Section SpecFormulas.
Variable K : constants.

(** B_nu = (2 h nu^3 / c^2) / (exp(h nu / (k_B T)) - 1). *)
Definition spec_planck_radiance (T nu : R) : R :=
  (2 * c_h K * nu ^ 3 / (c_c K) ^ 2) / (exp (c_h K * nu / (c_k_B K * T)) - 1).

(** K = 32 pi / (3 m_e c^3) * sqrt(2 pi / (3 k_B m_e)). *)
Definition spec_K : R :=
  (32 * PI) / (3 * c_m_e K * (c_c K) ^ 3)
  * sqrt (2 * PI / (3 * c_k_B K * c_m_e K)).

(** n_e = rho / (m_e + m_p). *)
Definition spec_n_e (rho : R) : R := rho / (c_m_e K + c_m_p K).

(** K e^6 T^(1/2) Z^2 n_e n_i exp(- h nu / (k_B T)) with n_i = n_e. *)
Definition spec_bremsstrahlung_emissivity (rho T Z nu : R) : R :=
  spec_K * (c_e_gauss K) ^ 6 * sqrt T * Z ^ 2
  * spec_n_e rho * spec_n_e rho
  * exp (- (c_h K * nu) / (c_k_B K * T)).

(** The part of the bremsstrahlung formula that does not depend on the
    frequency. *)
Definition bremss_prefactor (rho T Z : R) : R :=
  spec_K * (c_e_gauss K) ^ 6 * sqrt T * Z ^ 2 * spec_n_e rho * spec_n_e rho.

End SpecFormulas.

(** ** [1.intro.ipynb]: the scales of a black hole *)

(** The cells of the notebook as functions of the mass [M_BH] and the
    distance [D_BH] they start from; [G] is [c.G] and the speed of light is
    [c.c] of the constants. *)
Module Intro.
Section WithConstants.
Variable K : constants.
Variable G : R.

Definition r_g (M_BH : R) : xreal :=
  xdiv (xmul (Num G) (Num M_BH)) (xpow (Num (c_c K)) 2).

Definition t_g (M_BH : R) : xreal :=
  xdiv (xmul (Num G) (Num M_BH)) (xpow (Num (c_c K)) 3).

Definition r_S (M_BH : R) : xreal := xmul (Num 2) (r_g M_BH).

Definition t_ISCO (M_BH : R) : xreal :=
  xdiv (xmul (xmul (xmul (Num 2) (Num PI)) (Num 6)) (r_g M_BH)) (Num (c_c K)).

Definition r_shadow (M_BH : R) : xreal := xmul (xsqrt (Num 27)) (r_g M_BH).

Definition size (M_BH D_BH : R) : xreal := xdiv (r_shadow M_BH) (Num D_BH).

Definition X : R := 1.

Definition kappa_es : xreal := xmul (Num 0.2) (xadd (Num 1) (Num X)).

Definition L_Edd (M_BH : R) : xreal :=
  xdiv (xmul (xmul (xmul (xmul (Num 4) (Num PI)) (Num G)) (Num M_BH))
             (Num (c_c K)))
       kappa_es.

Definition epsilon : R := 0.1.

Definition Mdot_Edd (M_BH : R) : xreal :=
  xdiv (L_Edd M_BH) (xmul (Num epsilon) (xpow (Num (c_c K)) 2)).
End WithConstants.
End Intro.

(** ** The operands of the division in [Bnu] *)

Section Division.
Variable K : constants.

(** The value [f] the second statement of [Radiating.Bnu] computes. *)
Definition Bnu_numerator_at (nu : R) : xreal :=
  xdiv (xmul (xmul (Num 2) (Num (c_h K)))
             (xmul (xmul (Num nu) (Num nu)) (Num nu)))
       (xmul (Num (c_c K)) (Num (c_c K))).

(** The value of [np.exp(x) - 1] in the third statement. *)
Definition Bnu_denominator_at (T nu : R) : xreal :=
  xsub (xexp (xdiv (xmul (Num (c_h K)) (Num nu))
                   (xmul (Num (c_k_B K)) (Num T))))
       (Num 1).
End Division.

(** ** The formulas in binary64

    The chains of operations of [Radiating.Bnu] and [RL.jnu_bremss] at one
    frequency, on the binary64 numbers numpy computes with.  [*], [/], [-]
    and [np.sqrt] are the IEEE-754 operations, rounded to nearest.

    [np_exp] is the result of [np.exp] on the arguments where binary64
    leaves it no choice: 1.0 for |x| < 2^-54 (the exponential is nearer to 1
    than to any other binary64 number), 0.0 for x < -746 (it is below half
    the smallest positive binary64 number) and inf for x > 710 (it is above
    the largest).  Between these ranges the last digit of the result is the
    library's, and the model gives no value.

    [**] on a binary64 number is the power function of the C library: a
    parameter [np_power] of [jnu_bremss]. *)

Module Binary64.
Local Open Scope float_scope.

Record constants : Type := Constants {
  c_h : float;
  c_k_B : float;
  c_c : float;
  c_e_gauss : float;
  c_m_e : float;
  c_m_p : float
}.

(** The values astropy holds (CODATA 2018, SI units; [c.e.gauss] in
    franklin). *)
Definition si : constants :=
  {| c_h := 6.62607015e-34;
     c_k_B := 1.380649e-23;
     c_c := 299792458;
     c_e_gauss := 4.803204712570263e-10;
     c_m_e := 9.1093837015e-31;
     c_m_p := 1.67262192369e-27 |}.

(** The same constants in CGS units, as in [codata2018]. *)
Definition cgs : constants :=
  {| c_h := 6.62607015e-27;
     c_k_B := 1.380649e-16;
     c_c := 29979245800;
     c_e_gauss := 4.803204712570263e-10;
     c_m_e := 9.1093837015e-28;
     c_m_p := 1.67262192369e-24 |}.

(** [from math import pi]. *)
Definition pi : float := 3.141592653589793.

Definition np_exp (x : float) : option float :=
  if PrimFloat.abs x <? 0x1p-54 then Some 1
  else if x <? -746 then Some 0
  else if 710 <? x then Some infinity
  else None.

Section WithConstants.
Variable K : constants.
Local Abbreviation h := (c_h K).
Local Abbreviation k_B := (c_k_B K).
Local Abbreviation c := (c_c K).
Local Abbreviation e_gauss := (c_e_gauss K).
Local Abbreviation m_e := (c_m_e K).
Local Abbreviation m_p := (c_m_p K).




Definition Bnu (T nu : float) : option float :=
  let x := (h * nu) / (k_B * T) in
  let f := 2 * h * (nu * nu * nu) / (c * c) in
  e ← np_exp x; Some (f / (e - 1)).

Variable np_power : float -> float -> float.

Definition jnu_bremss (rho T Z nu : float) : option float :=
  let f := (32 * pi * np_power e_gauss 6) / (3 * m_e * np_power c 3)
           * PrimFloat.sqrt (2 * pi / (3 * k_B * m_e)) in
  let ne := rho / (m_e + m_p) in
  let ni := ne in
  e ← np_exp (- h * nu / (k_B * T));
  Some (f * PrimFloat.sqrt T * Z * Z * ne * ni * e).
End WithConstants.
End Binary64.

(** * Lemmas *)

(** ** Arithmetic on finite values *)

Lemma Rzero_false r : r <> 0 -> Rzero r = false.
Proof. intros H. unfold Rzero. destruct (Req_dec_T r 0); congruence. Qed.

Lemma Rzero_true : Rzero 0 = true.
Proof. unfold Rzero. destruct (Req_dec_T 0 0); congruence. Qed.

Lemma Rneg_false r : 0 <= r -> Rneg r = false.
Proof. intros H. unfold Rneg. destruct (Rlt_dec r 0); [lra | reflexivity]. Qed.

Lemma xdiv_Num x y : y <> 0 -> xdiv (Num x) (Num y) = Num (x / y).
Proof. intros H. simpl. now rewrite Rzero_false. Qed.

Lemma xsqrt_Num x : 0 <= x -> xsqrt (Num x) = Num (sqrt x).
Proof. intros H. simpl. now rewrite Rneg_false. Qed.

Lemma xpow_Num x n : xpow (Num x) n = Num (x ^ n).
Proof. destruct n; reflexivity. Qed.

(** ** Broadcasting over one input list *)

Section Broadcast.
Context {A : Type}.
Variables (op : xreal -> xreal -> xreal) (op1 : xreal -> xreal).
Variables (F G : A -> xreal) (l : list A) (s : xreal).

Lemma broadcast2_array_array :
  broadcast2 op (Array (map F l)) (Array (map G l))
  = Ok (Array (map (fun v => op (F v) (G v)) l)).
Proof.
  simpl. rewrite !length_map, Nat.eqb_refl. do 2 f_equal.
  induction l as [|a l' IH]; simpl; [reflexivity | now rewrite IH].
Qed.

Lemma broadcast2_scalar_array :
  broadcast2 op (Scalar s) (Array (map G l))
  = Ok (Array (map (fun v => op s (G v)) l)).
Proof. simpl. now rewrite map_map. Qed.

Lemma broadcast2_array_scalar :
  broadcast2 op (Array (map F l)) (Scalar s)
  = Ok (Array (map (fun v => op (F v) s) l)).
Proof. simpl. now rewrite map_map. Qed.

Lemma ufunc1_array :
  ufunc1 op1 (Array (map F l)) = Array (map (fun v => op1 (F v)) l).
Proof. simpl. now rewrite map_map. Qed.
End Broadcast.

(** ** Evaluation of expressions and statements *)

Lemma binop_eval op (a b : expr) self u v w :
  a self = Ok (PyNum u) -> b self = Ok (PyNum v) ->
  broadcast2 op u v = Ok w ->
  binop op a b self = Ok (PyNum w).
Proof. intros Ha Hb Hw. unfold binop. rewrite Ha, Hb. simpl. now rewrite Hw. Qed.

Lemma unop_eval op (a : expr) self u w :
  a self = Ok (PyNum u) -> ufunc1 op u = w ->
  unop op a self = Ok (PyNum w).
Proof. intros Ha Hw. unfold unop. rewrite Ha. simpl. now rewrite Hw. Qed.

Lemma getattr_eval name (self : attrs) v :
  self !! name = Some v -> getattr name self = Ok v.
Proof. intros H. unfold getattr. now rewrite H. Qed.

Lemma bind_eval {A} (e : expr) (k : pyobj -> Py A) self v r :
  e self = Ok v -> k v self = r -> bind (eval e) k self = r.
Proof. intros He Hk. unfold bind, eval. now rewrite He. Qed.

Lemma eval_eval (e : expr) self v :
  e self = Ok v -> eval e self = (Ok v, self).
Proof. intros He. unfold eval. now rewrite He. Qed.

Ltac py_broadcast :=
  first [ apply broadcast2_array_array
        | apply broadcast2_scalar_array
        | apply broadcast2_array_scalar
        | reflexivity ].

Ltac py_expr :=
  lazymatch goal with
  | |- binop _ _ _ _ = _ => eapply binop_eval; [py_expr | py_expr | py_broadcast]
  | |- unop _ _ _ = _ =>
      eapply unop_eval; [py_expr | first [apply ufunc1_array | reflexivity]]
  | |- getattr _ _ = _ => apply getattr_eval; eassumption
  | |- _ => reflexivity
  end.

Ltac py_stmt :=
  unfold np_exp, np_sqrt, py_pow;
  repeat (eapply bind_eval; [py_expr | cbv beta zeta]);
  apply eval_eval; py_expr.

Section MethodsElementwise.
Variable K : constants.

Lemma Bnu_elementwise (self : attrs) T nu :
  self !! "T" = Some (num T) ->
  Radiating.Bnu K (PyNum (to_ndarray nu)) self
  = (Ok (PyNum (elementwise (Bnu_at K T) nu)), self).
Proof.
  intros HT. unfold Radiating.Bnu, Bnu_at, num in *.
  destruct nu as [v|l]; simpl to_ndarray; simpl elementwise; py_stmt.
Qed.

Lemma jnu_bremss_elementwise (self : attrs) rho T Z nu :
  self !! "rho" = Some (num rho) ->
  self !! "T" = Some (num T) ->
  self !! "Z" = Some (num Z) ->
  RL.jnu_bremss K (PyNum (to_ndarray nu)) self
  = (Ok (PyNum (elementwise (jnu_bremss_at K rho T Z) nu)), self).
Proof.
  intros Hrho HT HZ. unfold RL.jnu_bremss, jnu_bremss_at, num in *.
  destruct nu as [v|l]; simpl to_ndarray; simpl elementwise; py_stmt.
Qed.
End MethodsElementwise.

Lemma elementwise_ext (P : R -> Prop) (F G : R -> xreal) nu :
  (forall v, P v -> F v = G v) -> all_frequencies P nu ->
  elementwise F nu = elementwise G nu.
Proof.
  intros HFG Hnu. destruct nu as [v|l]; simpl in *.
  - now rewrite HFG.
  - f_equal. induction Hnu as [|v l Hv _ IH]; simpl; [reflexivity|].
    now rewrite HFG, IH.
Qed.

Lemma all_frequencies_True nu : all_frequencies (fun _ => True) nu.
Proof. destruct nu; simpl; [exact I | now apply Forall_forall]. Qed.

Lemma shape_elementwise F nu : shape (elementwise F nu) = shape (to_ndarray nu).
Proof. destruct nu; simpl; [reflexivity | now rewrite !length_map]. Qed.

(** ** Construction and method calls *)

Lemma instantiate_RL K rho T cos_theta B Z :
  instantiate (RL.cls K) [rho; T; cos_theta; B; Z]
  = Ok (Object (RL.cls K) (init_dict rho T cos_theta B Z)).
Proof. reflexivity. Qed.

Lemma instantiate_Dummy K rho T cos_theta B Z :
  instantiate (Dummy.cls K) [rho; T; cos_theta; B; Z]
  = Ok (Object (Dummy.cls K) (init_dict rho T cos_theta B Z)).
Proof. reflexivity. Qed.

Lemma instantiate_concrete K cls rho T cos_theta B Z obj :
  cls = Dummy.cls K \/ cls = RL.cls K ->
  instantiate cls [rho; T; cos_theta; B; Z] = Ok obj ->
  obj = Object cls (init_dict rho T cos_theta B Z).
Proof.
  intros [-> | ->] Hnew;
    [rewrite instantiate_Dummy in Hnew | rewrite instantiate_RL in Hnew];
    now injection Hnew.
Qed.

Lemma init_dict_rho rho T cos_theta B Z :
  init_dict rho T cos_theta B Z !! "rho" = Some rho.
Proof. reflexivity. Qed.

Lemma init_dict_T rho T cos_theta B Z :
  init_dict rho T cos_theta B Z !! "T" = Some T.
Proof. reflexivity. Qed.

Lemma init_dict_Z rho T cos_theta B Z :
  init_dict rho T cos_theta B Z !! "Z" = Some Z.
Proof. reflexivity. Qed.

Lemma invoke_Bnu K cls d nu :
  cls = Dummy.cls K \/ cls = RL.cls K ->
  invoke (Object cls d) "Bnu" [nu]
  = (fst (Radiating.Bnu K nu d), Object cls (snd (Radiating.Bnu K nu d))).
Proof.
  intros [-> | ->]; unfold invoke; simpl;
    destruct (Radiating.Bnu K nu d); reflexivity.
Qed.

Lemma invoke_jnu_bremss K d nu :
  invoke (Object (RL.cls K) d) "jnu_bremss" [nu]
  = (fst (RL.jnu_bremss K nu d), Object (RL.cls K) (snd (RL.jnu_bremss K nu d))).
Proof. unfold invoke; simpl. destruct (RL.jnu_bremss K nu d); reflexivity. Qed.

Lemma Bnu_call K cls rho T cos_theta B Z nu obj :
  cls = Dummy.cls K \/ cls = RL.cls K ->
  instantiate cls [rho; num T; cos_theta; B; Z] = Ok obj ->
  invoke obj "Bnu" [PyNum (to_ndarray nu)]
  = (Ok (PyNum (elementwise (Bnu_at K T) nu)), obj).
Proof.
  intros Hcls Hnew.
  rewrite (instantiate_concrete K cls _ _ _ _ _ obj Hcls Hnew).
  rewrite (invoke_Bnu K) by assumption.
  now rewrite (Bnu_elementwise K _ T) by apply init_dict_T.
Qed.

Lemma jnu_bremss_call K rho T cos_theta B Z nu obj :
  instantiate (RL.cls K) [num rho; num T; cos_theta; B; num Z] = Ok obj ->
  invoke obj "jnu_bremss" [PyNum (to_ndarray nu)]
  = (Ok (PyNum (elementwise (jnu_bremss_at K rho T Z) nu)), obj).
Proof.
  intros Hnew. rewrite instantiate_RL in Hnew. injection Hnew as <-.
  rewrite invoke_jnu_bremss.
  now rewrite (jnu_bremss_elementwise K _ rho T Z)
    by (apply init_dict_rho || apply init_dict_T || apply init_dict_Z).
Qed.

(** ** Methods that only read [self] *)

Lemma readonly_ret {A} (a : A) : readonly (ret a).
Proof. intros self. reflexivity. Qed.

Lemma readonly_raise {A} e : readonly (@raise A e).
Proof. intros self. reflexivity. Qed.

Lemma readonly_eval e : readonly (eval e).
Proof. intros self. reflexivity. Qed.

Lemma readonly_bind {A B} (m : Py A) (k : A -> Py B) :
  readonly m -> (forall a, readonly (k a)) -> readonly (bind m k).
Proof.
  intros Hm Hk self. unfold bind. specialize (Hm self).
  destruct (m self) as [[a|e] self']; simpl in *; subst; [apply Hk | reflexivity].
Qed.

Lemma readonly_def1 body :
  (forall nu, readonly (body nu)) -> forall args, readonly (def1 body args).
Proof.
  intros Hb args. unfold def1.
  destruct args as [|nu [|? ?]];
    [apply readonly_raise | apply Hb | apply readonly_raise].
Qed.

Ltac readonly_body :=
  repeat (apply readonly_bind; [apply readonly_eval | intros ?]);
  apply readonly_eval.

Lemma readonly_pass : readonly pass.
Proof. apply readonly_ret. Qed.

Lemma readonly_Bnu K nu : readonly (Radiating.Bnu K nu).
Proof. unfold Radiating.Bnu. readonly_body. Qed.

Lemma readonly_jnu_bremss K nu : readonly (RL.jnu_bremss K nu).
Proof. unfold RL.jnu_bremss. readonly_body. Qed.

Lemma invoke_readonly obj name args f :
  class_getattr (ob_type obj) name = Some f ->
  readonly (call f args) ->
  snd (invoke obj name args) = obj.
Proof.
  intros Hf Hro. unfold invoke. rewrite Hf.
  specialize (Hro (ob_dict obj)).
  destruct (call f args (ob_dict obj)) as [r d]; simpl in *; subst.
  now destruct obj.
Qed.

(** The three methods of the two concrete classes only read [self]. *)
Lemma concrete_methods_readonly K cls name :
  cls = Dummy.cls K \/ cls = RL.cls K ->
  name = "Bnu" \/ name = "jnu_bremss" \/ name = "jnu_sync" ->
  exists f, class_getattr cls name = Some f /\
            forall args, readonly (call f args).
Proof.
  intros [-> | ->] [-> | [-> | ->]]; eexists; (split; [reflexivity|]);
    simpl; apply readonly_def1; intros nu;
    first [ apply readonly_Bnu | apply readonly_jnu_bremss | apply readonly_pass ].
Qed.

(** ** The abstract-method check *)

Lemma abstractmethods_Radiating K :
  abstractmethods (Radiating.cls K) = ["jnu_bremss"; "jnu_sync"].
Proof. reflexivity. Qed.

Lemma filter_abstract_nil (ns : list (string * function)) :
  Forall (fun nf => isabstractmethod (snd nf) = false) ns ->
  List.filter (fun nf => isabstractmethod (snd nf)) ns = [].
Proof.
  induction 1 as [|nf ns Hnf _ IH]; simpl; [reflexivity|].
  now rewrite Hnf.
Qed.

Lemma assoc_concrete (ns : list (string * function)) name f :
  Forall (fun nf => isabstractmethod (snd nf) = false) ns ->
  assoc name ns = Some f -> isabstractmethod f = false.
Proof.
  induction 1 as [|[n g] ns Hnf _ IH]; simpl; [discriminate|].
  destruct (String.eqb n name); [|exact IH].
  intros [= <-]. exact Hnf.
Qed.

Section Subclass.
Variables (K : constants) (name : string) (ns : list (string * function)).
Local Abbreviation sub := (Class name (Radiating.cls K) ns).

Lemma subclass_abstractmethods :
  abstractmethods sub
  = map fst (List.filter (fun nf => isabstractmethod (snd nf)) ns)
    ++ List.filter (is_abstract sub) ["jnu_bremss"; "jnu_sync"].
Proof. reflexivity. Qed.

Lemma subclass_inherits_abstract n :
  n = "jnu_bremss" \/ n = "jnu_sync" ->
  assoc n ns = None -> is_abstract sub n = true.
Proof.
  intros Hn Hnone. unfold is_abstract. simpl. rewrite Hnone.
  destruct Hn as [-> | ->]; reflexivity.
Qed.

Lemma subclass_overrides n f :
  assoc n ns = Some f -> is_abstract sub n = isabstractmethod f.
Proof. intros Hf. unfold is_abstract. simpl. now rewrite Hf. Qed.

Lemma subclass_incomplete args :
  assoc "jnu_bremss" ns = None \/ assoc "jnu_sync" ns = None ->
  instantiate sub args = Raise TypeError.
Proof.
  intros Hmiss. unfold instantiate.
  destruct (abstractmethods sub) as [|m ms] eqn:Habs; [|reflexivity].
  exfalso. rewrite subclass_abstractmethods in Habs.
  apply app_eq_nil in Habs as [_ Habs]. simpl in Habs.
  destruct Hmiss as [Hm | Hm].
  - rewrite (subclass_inherits_abstract "jnu_bremss") in Habs by auto.
    discriminate.
  - rewrite (subclass_inherits_abstract "jnu_sync") in Habs by auto.
    destruct (is_abstract sub "jnu_bremss"); discriminate.
Qed.

Lemma subclass_complete f g :
  assoc "jnu_bremss" ns = Some f -> assoc "jnu_sync" ns = Some g ->
  Forall (fun nf => isabstractmethod (snd nf) = false) ns ->
  abstractmethods sub = [].
Proof.
  intros Hf Hg Hall. rewrite subclass_abstractmethods.
  rewrite filter_abstract_nil by assumption. simpl.
  rewrite (subclass_overrides _ _ Hf), (subclass_overrides _ _ Hg).
  now rewrite (assoc_concrete _ _ _ Hall Hf), (assoc_concrete _ _ _ Hall Hg).
Qed.

Lemma subclass_instantiate f g args :
  assoc "jnu_bremss" ns = Some f -> assoc "jnu_sync" ns = Some g ->
  Forall (fun nf => isabstractmethod (snd nf) = false) ns ->
  assoc "__init__" ns = None ->
  instantiate sub args
  = match Radiating.__init__sig args ∅ with
    | (Ok _, d) => Ok (Object sub d)
    | (Raise e, _) => Raise e
    end.
Proof.
  intros Hf Hg Hall Hinit. unfold instantiate.
  rewrite (subclass_complete f g) by assumption.
  simpl class_getattr. rewrite Hinit. reflexivity.
Qed.
End Subclass.

(** ** The values of the kernels *)

Lemma pow2_pos x : x <> 0 -> 0 < x ^ 2.
Proof.
  intros Hx. replace (x ^ 2) with (Rsqr x) by (unfold Rsqr; ring).
  now apply Rsqr_pos_lt.
Qed.

Lemma physical_codata2018 : physical codata2018.
Proof. unfold physical, codata2018; simpl. repeat split; lra. Qed.

Section KernelValues.
Variable K : constants.
Hypothesis HK : physical K.




Lemma Bnu_at_zero T : 0 < T -> Bnu_at K T 0 = NaN.
Proof.
  intros HT. destruct HK as (Hh & Hk & Hc & _).
  assert (0 < c_k_B K * T) by (apply Rmult_lt_0_compat; assumption).
  assert (0 < c_c K * c_c K) by (apply Rmult_lt_0_compat; assumption).
  unfold Bnu_at. cbn [xmul].
  rewrite !xdiv_Num by lra. cbn [xexp xsub xadd xneg].
  replace (c_h K * 0 / (c_k_B K * T)) with 0 by (field; lra).
  rewrite exp_0.
  replace (1 + - (1)) with 0 by ring.
  replace (2 * c_h K * (0 * 0 * 0) / (c_c K * c_c K)) with 0 by (field; lra).
  simpl. now rewrite Rzero_true.
Qed.

Lemma jnu_bremss_at_Num rho T Z nu :
  0 < T ->
  jnu_bremss_at K rho T Z nu
  = Num (spec_bremsstrahlung_emissivity K rho T Z nu).
Proof.
  intros HT. destruct HK as (Hh & Hk & Hc & He & Hme & Hmp).
  assert (0 < c_k_B K * T) by (apply Rmult_lt_0_compat; assumption).
  assert (0 < c_c K ^ 3) by (apply pow_lt; assumption).
  assert (0 < 3 * c_m_e K * c_c K ^ 3)
    by (repeat apply Rmult_lt_0_compat; lra).
  assert (0 < 3 * c_k_B K * c_m_e K)
    by (repeat apply Rmult_lt_0_compat; lra).
  assert (0 <= 2 * PI / (3 * c_k_B K * c_m_e K)).
  { apply Rlt_le, Rdiv_lt_0_compat; [|assumption].
    pose proof PI_RGT_0. lra. }
  unfold jnu_bremss_at, spec_bremsstrahlung_emissivity, spec_K, spec_n_e.
  rewrite !xpow_Num. cbn [xmul xadd xneg].
  rewrite !xdiv_Num by lra.
  rewrite !xsqrt_Num by lra.
  cbn [xmul xexp]. do 2 f_equal.
  - field. lra.
  - f_equal. field. lra.
Qed.


(** A call of [jnu_bremss] at one frequency returns the real value of the
    bremsstrahlung formula. *)
Lemma jnu_bremss_call_real rho T cos_theta B Z nu obj :
  0 < T ->
  instantiate (RL.cls K) [num rho; num T; cos_theta; B; num Z] = Ok obj ->
  invoke obj "jnu_bremss" [num nu]
  = (Ok (num (spec_bremsstrahlung_emissivity K rho T Z nu)), obj).
Proof.
  intros HT Hnew.
  change (num nu) with (PyNum (to_ndarray (One nu))).
  rewrite (jnu_bremss_call K rho T cos_theta B Z (One nu) obj Hnew).
  simpl. now rewrite jnu_bremss_at_Num.
Qed.

(** ** The bremsstrahlung formula as prefactor times exponential *)

Lemma bremss_split rho T Z nu :
  spec_bremsstrahlung_emissivity K rho T Z nu
  = bremss_prefactor K rho T Z * exp (- (c_h K * nu) / (c_k_B K * T)).
Proof. reflexivity. Qed.

Lemma spec_K_pos : 0 < spec_K K.
Proof.
  destruct HK as (Hh & Hk & Hc & He & Hme & Hmp). unfold spec_K.
  pose proof PI_RGT_0 as Hpi.
  apply Rmult_lt_0_compat.
  - apply Rdiv_lt_0_compat; [lra|].
    repeat apply Rmult_lt_0_compat; lra.
  - apply sqrt_lt_R0. apply Rdiv_lt_0_compat; [lra|].
    repeat apply Rmult_lt_0_compat; lra.
Qed.

Lemma bremss_prefactor_pos rho T Z :
  rho <> 0 -> 0 < T -> Z <> 0 -> 0 < bremss_prefactor K rho T Z.
Proof.
  intros Hrho HT HZ. pose proof spec_K_pos as HKpos.
  destruct HK as (Hh & Hk & Hc & He & Hme & Hmp).
  unfold bremss_prefactor.
  assert (0 < c_e_gauss K ^ 6) by (apply pow_lt; assumption).
  assert (0 < sqrt T) by (apply sqrt_lt_R0; assumption).
  assert (0 < Z ^ 2) by (apply pow2_pos; assumption).
  assert (0 < spec_n_e K rho * spec_n_e K rho).
  { replace (spec_n_e K rho * spec_n_e K rho) with (spec_n_e K rho ^ 2) by ring.
    apply pow2_pos. unfold spec_n_e, Rdiv.
    apply Rmult_integral_contrapositive_currified; [assumption|].
    apply Rinv_neq_0_compat. lra. }
  rewrite Rmult_assoc.
  do 3 (apply Rmult_lt_0_compat; [|assumption]).
  apply Rmult_lt_0_compat; assumption.
Qed.

Lemma bremss_prefactor_ratio rho1 T1 Z1 rho2 T2 Z2 :
  rho2 <> 0 -> 0 < T1 -> 0 < T2 -> Z2 <> 0 ->
  bremss_prefactor K rho1 T1 Z1 / bremss_prefactor K rho2 T2 Z2
  = (Z1 / Z2) ^ 2 * sqrt (T1 / T2) * (rho1 / rho2) ^ 2.
Proof.
  intros Hrho HT1 HT2 HZ. pose proof spec_K_pos as HKpos.
  destruct HK as (Hh & Hk & Hc & He & Hme & Hmp).
  assert (0 < c_e_gauss K ^ 6) by (apply pow_lt; assumption).
  assert (0 < sqrt T2) by (apply sqrt_lt_R0; assumption).
  rewrite sqrt_div_alt by assumption.
  unfold bremss_prefactor, spec_n_e. field.
  repeat split; lra.
Qed.

(** The ratio of two emissivities at one frequency: the power law times
    the ratio of the two exponential factors. *)
Lemma bremss_ratio rho1 T1 Z1 rho2 T2 Z2 nu :
  rho2 <> 0 -> 0 < T1 -> 0 < T2 -> Z2 <> 0 ->
  spec_bremsstrahlung_emissivity K rho1 T1 Z1 nu
  / spec_bremsstrahlung_emissivity K rho2 T2 Z2 nu
  = (Z1 / Z2) ^ 2 * sqrt (T1 / T2) * (rho1 / rho2) ^ 2
    * exp (- (c_h K * nu) / (c_k_B K * T1) - - (c_h K * nu) / (c_k_B K * T2)).
Proof.
  intros Hrho HT1 HT2 HZ.
  rewrite <- (bremss_prefactor_ratio rho1 T1 Z1 rho2 T2 Z2) by assumption.
  rewrite !bremss_split.
  pose proof (bremss_prefactor_pos rho2 T2 Z2 Hrho HT2 HZ).
  unfold Rminus. rewrite exp_plus, exp_Ropp.
  pose proof (exp_pos (- (c_h K * nu) / (c_k_B K * T2))).
  field. split; lra.
Qed.

Lemma planck_exponents_differ T1 T2 nu :
  0 < T1 -> 0 < T2 -> T1 <> T2 -> nu <> 0 ->
  - (c_h K * nu) / (c_k_B K * T1) - - (c_h K * nu) / (c_k_B K * T2) <> 0.
Proof.
  intros HT1 HT2 Hne Hnu Heq. destruct HK as (Hh & Hk & _).
  assert (H : c_h K * nu * (T1 - T2) = 0).
  { assert (0 < c_k_B K * T1) by (apply Rmult_lt_0_compat; assumption).
    assert (0 < c_k_B K * T2) by (apply Rmult_lt_0_compat; assumption).
    replace (c_h K * nu * (T1 - T2))
      with ((- (c_h K * nu) / (c_k_B K * T1) - - (c_h K * nu) / (c_k_B K * T2))
            * (c_k_B K * T1 * T2)) by (field; lra).
    rewrite Heq. ring. }
  apply Rmult_integral in H as [H | H]; [|lra].
  apply Rmult_integral in H as [H | H]; lra.
Qed.
End KernelValues.

(** ** The operands of the division in [Bnu] *)

Section DivisionValues.
Variable K : constants.
Hypothesis HK : physical K.

Lemma Bnu_at_division T nu :
  Bnu_at K T nu = xdiv (Bnu_numerator_at K nu) (Bnu_denominator_at K T nu).
Proof. reflexivity. Qed.



End DivisionValues.

(** ** The exponential near 0 *)

Lemma exp_minus_one_bounds x :
  0 < x < 1 -> x < exp x - 1 < x / (1 - x).
Proof.
  intros [H0 H1]. split.
  - pose proof (exp_ineq1 x). lra.
  - pose proof (exp_ineq1 (- x)) as He. rewrite exp_Ropp in He.
    assert (Hpos : 0 < exp x) by apply exp_pos.
    assert (Hinv : 1 - x < / exp x) by lra.
    assert (Hlt : exp x < / (1 - x)).
    { rewrite <- (Rinv_inv (exp x)).
      apply Rinv_lt_contravar; [|assumption].
      apply Rmult_lt_0_compat; [lra | now apply Rinv_0_lt_compat]. }
    replace (x / (1 - x)) with (/ (1 - x) - 1) by (field; lra).
    lra.
Qed.

(** ** Binary64: where [np.exp] rounds to 1 *)



(** * The claims *)

(** C1.  For a model built by [RL(rho, T, cos_theta, B, Z)] with [T > 0],
    [jnu_bremss] applied to a frequency input (one frequency or a sequence)
    returns, elementwise,
    K e^6 T^(1/2) Z^2 n_e n_i exp(- h nu / (k_B T))
    with K = 32 pi / (3 m_e c^3) sqrt(2 pi / (3 k_B m_e)) and
    n_e = n_i = rho / (m_e + m_p); the output has the shape of the input and
    the model is left as it was. *)
Theorem jnu_bremss_formula K rho T cos_theta B Z (nu : frequencies) obj :
  physical K -> 0 < T ->
  instantiate (RL.cls K) [num rho; num T; num cos_theta; num B; num Z] = Ok obj ->
  exists out,
    invoke obj "jnu_bremss" [PyNum (to_ndarray nu)] = (Ok (PyNum out), obj)
    /\ out = elementwise
               (fun v => Num (spec_bremsstrahlung_emissivity K rho T Z v)) nu
    /\ shape out = shape (to_ndarray nu).
Proof.
  intros HK HT Hnew. eexists. split; [|split].
  - apply (jnu_bremss_call K rho T (num cos_theta) (num B) Z nu obj Hnew).
  - apply (elementwise_ext (fun _ => True)); [|apply all_frequencies_True].
    intros v _. now apply jnu_bremss_at_Num.
  - apply shape_elementwise.
Qed.

Lemma jnu_bremss_formula_witness :
  exists out,
    invoke (Object (RL.cls codata2018)
                   (init_dict (num 1e18) (num 1e10) (num 0) (num 0) (num 1)))
           "jnu_bremss" [PyNum (to_ndarray (Many [1e9; 1e15; 1e24]))]
    = (Ok (PyNum out),
       Object (RL.cls codata2018)
              (init_dict (num 1e18) (num 1e10) (num 0) (num 0) (num 1)))
    /\ out = elementwise
               (fun v => Num (spec_bremsstrahlung_emissivity
                                codata2018 1e18 1e10 1 v))
               (Many [1e9; 1e15; 1e24])
    /\ shape out = shape (to_ndarray (Many [1e9; 1e15; 1e24])).
Proof.
  apply (jnu_bremss_formula codata2018 1e18 1e10 0 0 1).
  - exact physical_codata2018.
  - lra.
  - reflexivity.
Defined.

(** C2 (the code at the failing input).  On the model
    [Dummy(1e18, 1e10, 0, 0)] at the frequency 1e4 Hz the argument of the
    exponential, h nu / (k_B T), is 4.8e-17: [np.exp] returns 1.0, the
    denominator [np.exp(x) - 1] is 0.0 and [Bnu] returns inf, with the
    constants in SI units as with the constants in CGS units.  The value of
    B_nu = (2 h nu^3 / c^2) / (exp(h nu / (k_B T)) - 1) at that frequency
    lies between 3.07e-19 and 3.08e-19 (CGS). *)
Theorem Bnu_cancellation :
  Binary64.Bnu Binary64.si 1e10 1e4 = Some infinity
  /\ Binary64.Bnu Binary64.cgs 1e10 1e4 = Some infinity
  /\ 3.07e-19 < spec_planck_radiance codata2018 1e10 1e4 < 3.08e-19.
Proof.
  split; [vm_compute; reflexivity|]. split; [vm_compute; reflexivity|].
  unfold spec_planck_radiance, codata2018, c_h, c_k_B, c_c.
  set (x := 6.62607015e-27 * 1e4 / (1.380649e-16 * 1e10)).
  set (f := 2 * 6.62607015e-27 * 1e4 ^ 3 / 29979245800 ^ 2).
  assert (Hx : 4.7992e-17 < x < 4.7993e-17) by (unfold x; lra).
  assert (Hf : 3.07e-19 * (x / (1 - x)) < f /\ f < 3.08e-19 * x).
  { assert (Hq : x / (1 - x) < 4.7994e-17).
    { apply Rmult_lt_reg_r with (1 - x); [lra|].
      unfold Rdiv. rewrite Rmult_assoc, Rinv_l, Rmult_1_r by lra. nra. }
    assert (Hfv : 1.4744e-35 < f < 1.4746e-35) by (unfold f; lra).
    split; nra. }
  destruct (exp_minus_one_bounds x) as [HE1 HE2]; [lra|].
  set (E := exp x - 1) in *.
  assert (HE : 0 < E) by lra.
  split.
  - apply Rmult_lt_reg_r with E; [assumption|].
    unfold Rdiv at 2. rewrite Rmult_assoc, Rinv_l, Rmult_1_r by lra. nra.
  - apply Rmult_lt_reg_r with E; [assumption|].
    unfold Rdiv at 1. rewrite Rmult_assoc, Rinv_l, Rmult_1_r by lra. nra.
Qed.

(** C3.  Calling the abstract class [Radiating] raises [TypeError] at
    instantiation, whatever the arguments, and so does calling a subclass
    whose body lacks [jnu_bremss] or [jnu_sync]: no instance exists on which
    a missing method could later be called.  A subclass whose body defines
    both methods, declares no abstract method and keeps the inherited
    constructor is instantiated by four or five arguments. *)
Theorem abstract_class_instantiation K :
  (forall args, instantiate (Radiating.cls K) args = Raise TypeError)
  /\ (forall name ns args,
        assoc "jnu_bremss" ns = None \/ assoc "jnu_sync" ns = None ->
        instantiate (Class name (Radiating.cls K) ns) args = Raise TypeError)
  /\ (forall name ns f g rho T cos_theta B Z,
        assoc "jnu_bremss" ns = Some f -> assoc "jnu_sync" ns = Some g ->
        Forall (fun nf => isabstractmethod (snd nf) = false) ns ->
        assoc "__init__" ns = None ->
        instantiate (Class name (Radiating.cls K) ns) [rho; T; cos_theta; B]
        = Ok (Object (Class name (Radiating.cls K) ns)
                     (init_dict rho T cos_theta B (num 1)))
        /\ instantiate (Class name (Radiating.cls K) ns) [rho; T; cos_theta; B; Z]
           = Ok (Object (Class name (Radiating.cls K) ns)
                        (init_dict rho T cos_theta B Z))).
Proof.
  split; [|split].
  - intros args. reflexivity.
  - intros name ns args Hmiss. now apply subclass_incomplete.
  - intros name ns f g rho T cos_theta B Z Hf Hg Hall Hinit.
    split; rewrite (subclass_instantiate K name ns f g) by assumption;
      reflexivity.
Qed.

Lemma abstract_class_instantiation_witness :
  instantiate (Radiating.cls codata2018) [num 1e18; num 1e10; num 0; num 0]
  = Raise TypeError
  /\ instantiate (Dummy.cls codata2018) [num 1e18; num 1e10; num 0; num 0]
     = Ok (Object (Dummy.cls codata2018)
                  (init_dict (num 1e18) (num 1e10) (num 0) (num 0) (num 1))).
Proof.
  destruct (abstract_class_instantiation codata2018) as (Habs & _ & Hsub).
  split.
  - apply Habs.
  - refine (proj1 (Hsub "Dummy"
                     [ ("jnu_bremss", method (def1 (Dummy.jnu_bremss)));
                       ("jnu_sync", method (def1 (Dummy.jnu_sync))) ]
                     _ _ (num 1e18) (num 1e10) (num 0) (num 0) (num 1)
                     eq_refl eq_refl _ eq_refl)).
    repeat constructor.
Defined.

(** C4 (counterexample).  With the CODATA constants, the models
    [RL(1e18, 1e10, 0, 0, 1)] and [RL(1e18, 4e10, 0, 0, 1)] at the frequency
    1e15: the ratio of the two emissivities is not
    (Z1/Z2)^2 (T1/T2)^(1/2) (rho1/rho2)^2. *)
Lemma bremss_scaling_counterexample :
  exists obj1 obj2 j1 j2,
    instantiate (RL.cls codata2018) [num 1e18; num 1e10; num 0; num 0; num 1]
    = Ok obj1
    /\ instantiate (RL.cls codata2018) [num 1e18; num 4e10; num 0; num 0; num 1]
       = Ok obj2
    /\ invoke obj1 "jnu_bremss" [num 1e15] = (Ok (num j1), obj1)
    /\ invoke obj2 "jnu_bremss" [num 1e15] = (Ok (num j2), obj2)
    /\ j1 / j2 <> (1 / 1) ^ 2 * sqrt (1e10 / 4e10) * (1e18 / 1e18) ^ 2.
Proof.
  pose proof physical_codata2018 as HK.
  do 4 eexists. split; [reflexivity|]. split; [reflexivity|].
  split; [|split].
  - apply (jnu_bremss_call_real codata2018 HK 1e18 1e10 (num 0) (num 0) 1);
      [lra | reflexivity].
  - apply (jnu_bremss_call_real codata2018 HK 1e18 4e10 (num 0) (num 0) 1);
      [lra | reflexivity].
  - rewrite (bremss_ratio codata2018 HK) by lra.
    intros Heq.
    assert (Hs : 0 < sqrt (1e10 / 4e10)) by (apply sqrt_lt_R0; lra).
    set (d := - (c_h codata2018 * 1e15) / (c_k_B codata2018 * 1e10)
              - - (c_h codata2018 * 1e15) / (c_k_B codata2018 * 4e10)) in *.
    assert (Hd : d <> 0)
      by (apply (planck_exponents_differ codata2018 HK); lra).
    apply Hd, exp_inv. rewrite exp_0.
    apply Rmult_eq_reg_l
      with ((1 / 1) ^ 2 * sqrt (1e10 / 4e10) * (1e18 / 1e18) ^ 2).
    + rewrite Heq. ring.
    + replace ((1 / 1) ^ 2 * sqrt (1e10 / 4e10) * (1e18 / 1e18) ^ 2)
        with (sqrt (1e10 / 4e10)) by (field; lra).
      lra.
Qed.

(** C4 (amended).  For two models with positive temperatures, the second
    with nonzero [rho] and [Z], and one frequency [nu >= 0] at which
    h nu / (k_B T) does not exceed 700 for either temperature (so that
    neither exponential underflows), the emissivity of the first is the
    emissivity of the second times
    (Z1/Z2)^2 (T1/T2)^(1/2) (rho1/rho2)^2 exp(-(h nu / k_B) (1/T1 - 1/T2));
    at equal temperatures the factor is the power law
    (Z1/Z2)^2 (rho1/rho2)^2 alone. *)
Theorem bremss_scaling_factor K rho1 T1 Z1 rho2 T2 Z2 ct1 B1 ct2 B2 nu
        obj1 obj2 :
  physical K ->
  0 < T1 -> 0 < T2 -> rho2 <> 0 -> Z2 <> 0 ->
  0 <= nu ->
  c_h K * nu / (c_k_B K * T1) <= 700 ->
  c_h K * nu / (c_k_B K * T2) <= 700 ->
  instantiate (RL.cls K) [num rho1; num T1; ct1; B1; num Z1] = Ok obj1 ->
  instantiate (RL.cls K) [num rho2; num T2; ct2; B2; num Z2] = Ok obj2 ->
  exists j1 j2,
    invoke obj1 "jnu_bremss" [num nu] = (Ok (num j1), obj1)
    /\ invoke obj2 "jnu_bremss" [num nu] = (Ok (num j2), obj2)
    /\ j1 = (Z1 / Z2) ^ 2 * sqrt (T1 / T2) * (rho1 / rho2) ^ 2
            * exp (- (c_h K * nu / c_k_B K) * (1 / T1 - 1 / T2))
            * j2
    /\ (T1 = T2 -> j1 = (Z1 / Z2) ^ 2 * (rho1 / rho2) ^ 2 * j2).
Proof.
  intros HK HT1 HT2 Hr2 HZ2 _ _ _ Hnew1 Hnew2.
  assert (Hk : 0 < c_k_B K) by (destruct HK as (_ & Hk & _); exact Hk).
  do 2 eexists.
  split; [now apply (jnu_bremss_call_real K HK rho1 T1 ct1 B1 Z1 nu obj1)|].
  split; [now apply (jnu_bremss_call_real K HK rho2 T2 ct2 B2 Z2 nu obj2)|].
  set (j1 := spec_bremsstrahlung_emissivity K rho1 T1 Z1 nu).
  set (j2 := spec_bremsstrahlung_emissivity K rho2 T2 Z2 nu).
  assert (Hj2 : 0 < j2).
  { unfold j2. rewrite bremss_split.
    apply Rmult_lt_0_compat; [|apply exp_pos].
    now apply bremss_prefactor_pos. }
  assert (Hratio :
    j1 / j2
    = (Z1 / Z2) ^ 2 * sqrt (T1 / T2) * (rho1 / rho2) ^ 2
      * exp (- (c_h K * nu / c_k_B K) * (1 / T1 - 1 / T2))).
  { unfold j1, j2. rewrite (bremss_ratio K HK) by assumption.
    do 2 f_equal. field. repeat split; lra. }
  assert (Hj1 : j1 = j1 / j2 * j2) by (field; lra).
  split.
  - rewrite Hj1 at 1. now rewrite Hratio.
  - intros <-. rewrite Hj1 at 1. rewrite Hratio.
    replace (T1 / T1) with 1 by (field; lra).
    replace (1 / T1 - 1 / T1) with 0 by ring.
    rewrite sqrt_1, Rmult_0_r, exp_0. ring.
Qed.

Lemma bremss_scaling_factor_witness :
  exists j1 j2,
    invoke (Object (RL.cls codata2018)
                   (init_dict (num 1e18) (num 1e10) (num 0) (num 0) (num 1)))
           "jnu_bremss" [num 1e15]
    = (Ok (num j1),
       Object (RL.cls codata2018)
              (init_dict (num 1e18) (num 1e10) (num 0) (num 0) (num 1)))
    /\ invoke (Object (RL.cls codata2018)
                      (init_dict (num 2e18) (num 4e10) (num 0) (num 0) (num 2)))
              "jnu_bremss" [num 1e15]
       = (Ok (num j2),
          Object (RL.cls codata2018)
                 (init_dict (num 2e18) (num 4e10) (num 0) (num 0) (num 2)))
    /\ j1 = (1 / 2) ^ 2 * sqrt (1e10 / 4e10) * (1e18 / 2e18) ^ 2
            * exp (- (c_h codata2018 * 1e15 / c_k_B codata2018)
                   * (1 / 1e10 - 1 / 4e10))
            * j2
    /\ (1e10 = 4e10 -> j1 = (1 / 2) ^ 2 * (1e18 / 2e18) ^ 2 * j2).
Proof.
  apply (bremss_scaling_factor codata2018 1e18 1e10 1 2e18 4e10 2
           (num 0) (num 0) (num 0) (num 0) 1e15);
    first [ exact physical_codata2018 | reflexivity
          | unfold codata2018, c_h, c_k_B; lra ].
Defined.

(** C5 (the code at the failing input).  [RL.jnu_sync] is the body [pass]:
    on the model [RL(1e18, 1e10, 0, 0)] it returns [None] for every
    frequency input, not an emissivity of the input's shape. *)
Theorem RL_jnu_sync_returns_None :
  exists obj,
    instantiate (RL.cls codata2018) [num 1e18; num 1e10; num 0; num 0] = Ok obj
    /\ forall nu, invoke obj "jnu_sync" [nu] = (Ok PyNone, obj).
Proof.
  eexists. split; [reflexivity|]. intros nu. reflexivity.
Qed.




(** C7 (the code at the failing inputs).  On the model
    [Dummy(1e18, 1e10, 0, 0)], with the constants in SI units as in CGS
    units: [Bnu] returns inf at 1e3 Hz and at 1e4 Hz, two frequencies below
    2.82 k_B T / h = 5.9e20 Hz (it does not increase between them, and no
    later value exceeds these); it returns 0.0 at 1e24 Hz and at 1e25 Hz,
    two frequencies above 2.83 k_B T / h (it does not decrease between
    them); and it returns NaN at 1e103 Hz, where [nu * nu * nu] overflows
    (a value that is not non-negative). *)
Theorem Bnu_plateaus :
  Forall (fun K =>
            Binary64.Bnu K 1e10 1e3 = Some infinity
            /\ Binary64.Bnu K 1e10 1e4 = Some infinity
            /\ Binary64.Bnu K 1e10 1e24 = Some 0%float
            /\ Binary64.Bnu K 1e10 1e25 = Some 0%float
            /\ Binary64.Bnu K 1e10 1e103 = Some nan)
         [Binary64.si; Binary64.cgs]
  /\ 1e4 < 2.82 * c_k_B codata2018 * 1e10 / c_h codata2018
  /\ 2.83 * c_k_B codata2018 * 1e10 / c_h codata2018 < 1e24.
Proof.
  split; [|unfold codata2018, c_h, c_k_B; split; lra].
  repeat constructor; vm_compute; reflexivity.
Qed.

(** C8 (the code at the failing inputs).  On the model
    [Dummy(1e18, 1e10, 0, 0)], with the constants in SI units as in CGS
    units: along the frequencies 1e4, 1e2, 1, 1e-10, 1e-50, 1e-90 Hz, which
    tend to 0, [Bnu] returns inf ([np.exp] returns 1.0 and the denominator is
    0.0), and at 1e-110, 1e-200 and 1e-300 Hz it returns NaN (the numerator
    has underflowed to 0.0 as well); along 1e103, 1e150, 1e200, 1e300 Hz, which
    tend to infinity, it returns NaN ([nu * nu * nu] and [np.exp] both
    overflow).  The values do not tend to 0 in either direction. *)
Theorem Bnu_extremes :
  Forall (fun K =>
            Forall (fun nu => Binary64.Bnu K 1e10 nu = Some infinity)
                   [1e4; 1e2; 1; 1e-10; 1e-50; 1e-90]%float
            /\ Forall (fun nu => Binary64.Bnu K 1e10 nu = Some nan)
                      [1e-110; 1e-200; 1e-300]%float
            /\ Forall (fun nu => Binary64.Bnu K 1e10 nu = Some nan)
                      [1e103; 1e150; 1e200; 1e300]%float)
         [Binary64.si; Binary64.cgs].
Proof.
  repeat constructor; vm_compute; reflexivity.
Qed.

(** C9.  A call of [Bnu], [jnu_bremss] or [jnu_sync] on an instance of a
    concrete class, with any arguments, leaves the instance (its attributes
    [rho], [T], [B], [cos], [Z] included) as it was, and a second call with
    the same arguments returns what the first call returned. *)
Theorem methods_leave_attributes_unchanged K obj name args :
  ob_type obj = Dummy.cls K \/ ob_type obj = RL.cls K ->
  name = "Bnu" \/ name = "jnu_bremss" \/ name = "jnu_sync" ->
  snd (invoke obj name args) = obj
  /\ invoke (snd (invoke obj name args)) name args = invoke obj name args.
Proof.
  intros Hcls Hname.
  destruct (concrete_methods_readonly K (ob_type obj) name Hcls Hname)
    as (f & Hf & Hro).
  assert (Hframe : snd (invoke obj name args) = obj)
    by (apply (invoke_readonly obj name args f Hf (Hro args))).
  split; [exact Hframe | now rewrite Hframe].
Qed.

Lemma methods_leave_attributes_unchanged_witness :
  snd (invoke (Object (RL.cls codata2018)
                      (init_dict (num 1e18) (num 1e10) (num 0) (num 0) (num 1)))
              "jnu_bremss" [num 1e15])
  = Object (RL.cls codata2018)
           (init_dict (num 1e18) (num 1e10) (num 0) (num 0) (num 1)).
Proof.
  apply (methods_leave_attributes_unchanged codata2018).
  - right; reflexivity.
  - right; left; reflexivity.
Defined.




(** * Further properties of the classes *)

(** ** Helper lemmas *)

Lemma Rneg_true r : r < 0 -> Rneg r = true.
Proof. intros H. unfold Rneg. destruct (Rlt_dec r 0); [reflexivity | lra]. Qed.

Lemma xmul_NaN_r a : xmul a NaN = NaN.
Proof. destruct a; reflexivity. Qed.

Lemma instantiate_concrete4 K cls rho T cos_theta B :
  cls = Dummy.cls K \/ cls = RL.cls K ->
  instantiate cls [rho; T; cos_theta; B]
  = Ok (Object cls (init_dict rho T cos_theta B (num 1))).
Proof. intros [-> | ->]; reflexivity. Qed.

Lemma init_dict_dom rho T cos_theta B Z :
  dom (init_dict rho T cos_theta B Z)
  = ({[ "rho"; "T"; "B"; "cos"; "Z" ]} : gset string).
Proof.
  unfold init_dict. rewrite !dom_insert_L, dom_empty_L. set_solver.
Qed.

(** ** The constructor *)

(** X1.  After [cls(rho, T, cos_theta, B, Z)] on a concrete class the
    instance has exactly the attributes [rho], [T], [B], [cos], [Z]; each
    holds the argument of its name, [cos] holding [cos_theta], whatever the
    values are. *)
Theorem constructor_stores_arguments K cls rho T cos_theta B Z obj :
  cls = Dummy.cls K \/ cls = RL.cls K ->
  instantiate cls [rho; T; cos_theta; B; Z] = Ok obj ->
  ob_type obj = cls
  /\ ob_dict obj !! "rho" = Some rho
  /\ ob_dict obj !! "T" = Some T
  /\ ob_dict obj !! "cos" = Some cos_theta
  /\ ob_dict obj !! "B" = Some B
  /\ ob_dict obj !! "Z" = Some Z
  /\ dom (ob_dict obj) = ({[ "rho"; "T"; "B"; "cos"; "Z" ]} : gset string).
Proof.
  intros Hcls Hnew.
  rewrite (instantiate_concrete K cls rho T cos_theta B Z obj Hcls Hnew).
  simpl. repeat split; try reflexivity.
  all: apply init_dict_dom.
Qed.

Lemma constructor_stores_arguments_witness :
  ob_dict (Object (RL.cls codata2018)
             (init_dict (num 1e18) (num 1e10) (num 0.5) (num 30) PyNone))
    !! "cos" = Some (num 0.5).
Proof.
  refine (proj1 (proj2 (proj2 (proj2
            (constructor_stores_arguments codata2018 (RL.cls codata2018)
               (num 1e18) (num 1e10) (num 0.5) (num 30) PyNone _
               (or_intror eq_refl) eq_refl))))).
Defined.

(** X2.  The charge number defaults to 1: constructing a concrete class
    with four arguments gives the instance that constructing it with the
    fifth argument 1 gives. *)
Theorem constructor_default_Z K cls rho T cos_theta B :
  cls = Dummy.cls K \/ cls = RL.cls K ->
  instantiate cls [rho; T; cos_theta; B]
  = instantiate cls [rho; T; cos_theta; B; num 1]
  /\ exists obj, instantiate cls [rho; T; cos_theta; B] = Ok obj
                 /\ ob_dict obj !! "Z" = Some (num 1).
Proof.
  intros Hcls. split.
  - destruct Hcls as [-> | ->]; reflexivity.
  - eexists. split; [now apply (instantiate_concrete4 K) | reflexivity].
Qed.

Lemma constructor_default_Z_witness :
  instantiate (Dummy.cls codata2018) [num 1e18; num 1e10; num 0; num 0]
  = instantiate (Dummy.cls codata2018) [num 1e18; num 1e10; num 0; num 0; num 1].
Proof.
  exact (proj1 (constructor_default_Z codata2018 (Dummy.cls codata2018)
                  (num 1e18) (num 1e10) (num 0) (num 0) (or_introl eq_refl))).
Defined.

(** X3.  A concrete class called with fewer than four or more than five
    arguments raises [TypeError]: no instance is built. *)
Theorem constructor_arity K cls args :
  cls = Dummy.cls K \/ cls = RL.cls K ->
  (length args < 4 \/ 5 < length args)%nat ->
  instantiate cls args = Raise TypeError.
Proof.
  intros Hcls Hlen.
  destruct args as [|a1 [|a2 [|a3 [|a4 [|a5 [|a6 args]]]]]];
    simpl in Hlen; try lia;
    destruct Hcls as [-> | ->]; reflexivity.
Qed.

Lemma constructor_arity_witness :
  instantiate (RL.cls codata2018) [num 1e18; num 1e10; num 0] = Raise TypeError.
Proof.
  apply (constructor_arity codata2018).
  - right; reflexivity.
  - left. simpl. lia.
Defined.

(** ** The hooks and the class table *)

(** X4.  On an instance of [Dummy] both hooks return [None] for every
    argument and leave the instance as it was: the overriding bodies
    [pass] are the ones called, not the abstract ones of [Radiating]. *)
Theorem Dummy_hooks_return_None K obj name nu :
  ob_type obj = Dummy.cls K ->
  name = "jnu_bremss" \/ name = "jnu_sync" ->
  invoke obj name [nu] = (Ok PyNone, obj)
  /\ is_abstract (ob_type obj) name = false
  /\ is_abstract (Radiating.cls K) name = true.
Proof.
  intros Hcls Hname. destruct obj as [cls d]. simpl in Hcls. subst cls.
  destruct Hname as [-> | ->]; repeat split; reflexivity.
Qed.

Lemma Dummy_hooks_return_None_witness :
  invoke (Object (Dummy.cls codata2018)
                 (init_dict (num 1e18) (num 1e10) (num 0) (num 0) (num 1)))
         "jnu_bremss" [num 1e15]
  = (Ok PyNone,
     Object (Dummy.cls codata2018)
            (init_dict (num 1e18) (num 1e10) (num 0) (num 0) (num 1))).
Proof.
  exact (proj1 (Dummy_hooks_return_None codata2018
                  (Object (Dummy.cls codata2018)
                     (init_dict (num 1e18) (num 1e10) (num 0) (num 0) (num 1)))
                  "jnu_bremss" (num 1e15) eq_refl (or_introl eq_refl))).
Defined.

(** X5.  What the stub [jnu_sync] returns cannot be used as a frequency:
    passing it to [Bnu] or to [jnu_bremss] raises [TypeError] and leaves the
    instance as it was. *)
Theorem stub_result_unusable K rho T cos_theta B Z nu obj :
  instantiate (RL.cls K) [num rho; num T; cos_theta; B; num Z] = Ok obj ->
  exists v,
    invoke obj "jnu_sync" [nu] = (Ok v, obj)
    /\ invoke obj "Bnu" [v] = (Raise TypeError, obj)
    /\ invoke obj "jnu_bremss" [v] = (Raise TypeError, obj).
Proof.
  intros Hnew. rewrite instantiate_RL in Hnew. injection Hnew as <-.
  exists PyNone. repeat split; reflexivity.
Qed.

Lemma stub_result_unusable_witness :
  exists v,
    invoke (Object (RL.cls codata2018)
                   (init_dict (num 1e18) (num 1e10) (num 0) (num 0) (num 1)))
           "jnu_sync" [num 1e15]
    = (Ok v,
       Object (RL.cls codata2018)
              (init_dict (num 1e18) (num 1e10) (num 0) (num 0) (num 1)))
    /\ invoke (Object (RL.cls codata2018)
                      (init_dict (num 1e18) (num 1e10) (num 0) (num 0) (num 1)))
              "Bnu" [v]
       = (Raise TypeError,
          Object (RL.cls codata2018)
                 (init_dict (num 1e18) (num 1e10) (num 0) (num 0) (num 1)))
    /\ invoke (Object (RL.cls codata2018)
                      (init_dict (num 1e18) (num 1e10) (num 0) (num 0) (num 1)))
              "jnu_bremss" [v]
       = (Raise TypeError,
          Object (RL.cls codata2018)
                 (init_dict (num 1e18) (num 1e10) (num 0) (num 0) (num 1))).
Proof.
  apply (stub_result_unusable codata2018 1e18 1e10 (num 0) (num 0) 1).
  reflexivity.
Defined.

(** X6.  The names left abstract in a subclass of [Radiating] whose body
    declares no abstract method are the hooks its body does not define, in
    the order [jnu_bremss], [jnu_sync]; in [Radiating] itself they are
    both. *)
Theorem subclass_abstract_names K name ns :
  Forall (fun nf => isabstractmethod (snd nf) = false) ns ->
  abstractmethods (Class name (Radiating.cls K) ns)
  = List.filter
      (fun n => match assoc n ns with Some _ => false | None => true end)
      (abstractmethods (Radiating.cls K))
  /\ abstractmethods (Radiating.cls K) = ["jnu_bremss"; "jnu_sync"].
Proof.
  intros Hall. split; [|reflexivity].
  rewrite subclass_abstractmethods, filter_abstract_nil by assumption.
  rewrite abstractmethods_Radiating. simpl.
  assert (Hn : forall n, n = "jnu_bremss" \/ n = "jnu_sync" ->
            is_abstract (Class name (Radiating.cls K) ns) n
            = match assoc n ns with Some _ => false | None => true end).
  { intros n Hn. destruct (assoc n ns) as [f|] eqn:Hf.
    - rewrite (subclass_overrides K name ns n f Hf).
      exact (assoc_concrete ns n f Hall Hf).
    - now apply subclass_inherits_abstract. }
  rewrite (Hn "jnu_bremss"), (Hn "jnu_sync") by auto.
  reflexivity.
Qed.

Lemma subclass_abstract_names_witness :
  abstractmethods
    (Class "Half" (Radiating.cls codata2018)
       [("jnu_bremss", method (def1 (RL.jnu_bremss codata2018)))])
  = ["jnu_sync"].
Proof.
  refine (eq_trans (proj1 (subclass_abstract_names codata2018 "Half"
            [("jnu_bremss", method (def1 (RL.jnu_bremss codata2018)))] _)) _).
  - repeat constructor.
  - reflexivity.
Defined.

(** X7.  A subclass of [Radiating] whose body consists of the two hooks
    inherits [__init__] and [Bnu]: built from the arguments an instance of
    [Dummy] is built from, its instance has the same attributes, [Bnu]
    returns on it what it returns on the instance of [Dummy], whatever the
    frequency argument, and leaves it as it was. *)
Theorem subclass_inherits_Bnu K name f g rho T cos_theta B Z nu obj objD :
  isabstractmethod f = false -> isabstractmethod g = false ->
  instantiate (Class name (Radiating.cls K)
                 [("jnu_bremss", f); ("jnu_sync", g)])
              [rho; T; cos_theta; B; Z] = Ok obj ->
  instantiate (Dummy.cls K) [rho; T; cos_theta; B; Z] = Ok objD ->
  ob_dict obj = ob_dict objD
  /\ fst (invoke obj "Bnu" [nu]) = fst (invoke objD "Bnu" [nu])
  /\ snd (invoke obj "Bnu" [nu]) = obj.
Proof.
  intros Hf Hg Hnew HnewD.
  rewrite (subclass_instantiate K name _ f g) in Hnew;
    [| reflexivity | reflexivity | repeat constructor; assumption
     | reflexivity].
  simpl in Hnew. injection Hnew as <-.
  rewrite instantiate_Dummy in HnewD. injection HnewD as <-.
  split; [reflexivity|]. split.
  - unfold invoke. simpl.
    destruct (Radiating.Bnu K nu _); reflexivity.
  - apply (invoke_readonly _ _ _ (method (def1 (Radiating.Bnu K))));
      [reflexivity|].
    apply readonly_def1, readonly_Bnu.
Qed.

Lemma subclass_inherits_Bnu_witness :
  fst (invoke (Object (Class "Other" (Radiating.cls codata2018)
                         [("jnu_bremss",
                           method (def1 (RL.jnu_bremss codata2018)));
                          ("jnu_sync", method (def1 Dummy.jnu_sync))])
                      (init_dict (num 1e18) (num 1e10) (num 0) (num 0) (num 1)))
              "Bnu" [num 1e15])
  = fst (invoke (Object (Dummy.cls codata2018)
                   (init_dict (num 1e18) (num 1e10) (num 0) (num 0) (num 1)))
                "Bnu" [num 1e15]).
Proof.
  exact (proj1 (proj2
           (subclass_inherits_Bnu codata2018 "Other"
              (method (def1 (RL.jnu_bremss codata2018)))
              (method (def1 Dummy.jnu_sync))
              (num 1e18) (num 1e10) (num 0) (num 0) (num 1) (num 1e15) _ _
              eq_refl eq_refl eq_refl eq_refl))).
Defined.

(** X9.  The attributes [B] and [cos] are never read, and [Bnu] reads only
    [T]: two instances of concrete classes with the same temperature give
    the same [Bnu], and two instances of [RL] with the same [rho], [T] and
    [Z] give the same [jnu_bremss], whatever their other attributes. *)
Theorem unused_attributes K T nu :
  (forall cls1 cls2 rho1 rho2 ct1 ct2 B1 B2 Z1 Z2 obj1 obj2,
      cls1 = Dummy.cls K \/ cls1 = RL.cls K ->
      cls2 = Dummy.cls K \/ cls2 = RL.cls K ->
      instantiate cls1 [rho1; num T; ct1; B1; Z1] = Ok obj1 ->
      instantiate cls2 [rho2; num T; ct2; B2; Z2] = Ok obj2 ->
      fst (invoke obj1 "Bnu" [PyNum (to_ndarray nu)])
      = fst (invoke obj2 "Bnu" [PyNum (to_ndarray nu)]))
  /\ (forall rho Z ct1 ct2 B1 B2 obj1 obj2,
        instantiate (RL.cls K) [num rho; num T; ct1; B1; num Z] = Ok obj1 ->
        instantiate (RL.cls K) [num rho; num T; ct2; B2; num Z] = Ok obj2 ->
        fst (invoke obj1 "jnu_bremss" [PyNum (to_ndarray nu)])
        = fst (invoke obj2 "jnu_bremss" [PyNum (to_ndarray nu)])).
Proof.
  split.
  - intros cls1 cls2 rho1 rho2 ct1 ct2 B1 B2 Z1 Z2 obj1 obj2 H1 H2 Hn1 Hn2.
    rewrite (Bnu_call K cls1 rho1 T ct1 B1 Z1 nu obj1 H1 Hn1).
    now rewrite (Bnu_call K cls2 rho2 T ct2 B2 Z2 nu obj2 H2 Hn2).
  - intros rho Z ct1 ct2 B1 B2 obj1 obj2 Hn1 Hn2.
    rewrite (jnu_bremss_call K rho T ct1 B1 Z nu obj1 Hn1).
    now rewrite (jnu_bremss_call K rho T ct2 B2 Z nu obj2 Hn2).
Qed.

Lemma unused_attributes_witness :
  fst (invoke (Object (RL.cls codata2018)
                 (init_dict (num 1e18) (num 1e10) (num 0) (num 0) (num 1)))
              "jnu_bremss" [PyNum (to_ndarray (One 1e15))])
  = fst (invoke (Object (RL.cls codata2018)
                   (init_dict (num 1e18) (num 1e10) (num 1) (num 30) (num 1)))
                "jnu_bremss" [PyNum (to_ndarray (One 1e15))]).
Proof.
  exact (proj2 (unused_attributes codata2018 1e10 (One 1e15))
           1e18 1 (num 0) (num 1) (num 0) (num 30) _ _ eq_refl eq_refl).
Defined.

(** * Further properties of the formulas *)

Section KernelEdges.
Variable K : constants.
Hypothesis HK : physical K.

Lemma jnu_bremss_at_negative_T rho T Z nu :
  T < 0 -> jnu_bremss_at K rho T Z nu = NaN.
Proof.
  intros HT. unfold jnu_bremss_at. cbn zeta.
  replace (xsqrt (Num T)) with NaN by (simpl; now rewrite Rneg_true).
  now rewrite xmul_NaN_r.
Qed.
End KernelEdges.

Lemma lookup_map {A B} (f : A -> B) (l : list A) (i : nat) :
  map f l !! i = f <$> (l !! i).
Proof. exact (list_lookup_fmap f l i). Qed.

(** X10.  On a sequence of frequencies [Bnu] works element by element: the
    result has the length of the input, and its element [i] is the value
    [Bnu] returns for the frequency [i] alone.  It is NaN where the
    frequency is 0, whatever the other frequencies are. *)
Theorem Bnu_every_frequency K cls rho T cos_theta B Z nus obj :
  physical K -> 0 < T ->
  cls = Dummy.cls K \/ cls = RL.cls K ->
  instantiate cls [rho; num T; cos_theta; B; Z] = Ok obj ->
  exists out,
    invoke obj "Bnu" [PyNum (Array (map Num nus))]
    = (Ok (PyNum (Array out)), obj)
    /\ length out = length nus
    /\ (forall i nu, nus !! i = Some nu ->
          exists b,
            out !! i = Some b
            /\ invoke obj "Bnu" [num nu] = (Ok (PyNum (Scalar b)), obj)
            /\ (nu = 0 -> b = NaN)).
Proof.
  intros HK HT Hcls Hnew.
  exists (map (Bnu_at K T) nus). split; [|split].
  - exact (Bnu_call K cls rho T cos_theta B Z (Many nus) obj Hcls Hnew).
  - apply length_map.
  - intros i nu Hi. exists (Bnu_at K T nu). split; [|split].
    + now rewrite lookup_map, Hi.
    + exact (Bnu_call K cls rho T cos_theta B Z (One nu) obj Hcls Hnew).
    + intros ->. now apply Bnu_at_zero.
Qed.

Lemma Bnu_every_frequency_witness :
  exists out,
    invoke (Object (Dummy.cls codata2018)
                   (init_dict (num 1e18) (num 1e10) (num 0) (num 0) (num 1)))
           "Bnu" [PyNum (Array (map Num [1e9; 0; -1e9]))]
    = (Ok (PyNum (Array out)),
       Object (Dummy.cls codata2018)
              (init_dict (num 1e18) (num 1e10) (num 0) (num 0) (num 1)))
    /\ length out = length [1e9; 0; -1e9]
    /\ (forall i nu, [1e9; 0; -1e9] !! i = Some nu ->
          exists b,
            out !! i = Some b
            /\ invoke (Object (Dummy.cls codata2018)
                         (init_dict (num 1e18) (num 1e10) (num 0) (num 0)
                                    (num 1)))
                      "Bnu" [num nu]
               = (Ok (PyNum (Scalar b)),
                  Object (Dummy.cls codata2018)
                    (init_dict (num 1e18) (num 1e10) (num 0) (num 0) (num 1)))
            /\ (nu = 0 -> b = NaN)).
Proof.
  apply (Bnu_every_frequency codata2018 (Dummy.cls codata2018)
           (num 1e18) 1e10 (num 0) (num 0) (num 1)).
  - exact physical_codata2018.
  - lra.
  - left; reflexivity.
  - reflexivity.
Defined.



(** X14.  The constructor accepts a negative temperature; [jnu_bremss]
    then returns NaN at every frequency (the square root of [T]). *)
Theorem negative_temperature K rho T cos_theta B Z nu :
  physical K -> T < 0 ->
  instantiate (RL.cls K) [num rho; num T; cos_theta; B; num Z]
  = Ok (Object (RL.cls K) (init_dict (num rho) (num T) cos_theta B (num Z)))
  /\ invoke (Object (RL.cls K)
               (init_dict (num rho) (num T) cos_theta B (num Z)))
            "jnu_bremss" [PyNum (to_ndarray nu)]
     = (Ok (PyNum (elementwise (fun _ => NaN) nu)),
        Object (RL.cls K) (init_dict (num rho) (num T) cos_theta B (num Z))).
Proof.
  intros HK HT. split; [reflexivity|].
  rewrite (jnu_bremss_call K rho T cos_theta B Z nu
             (Object (RL.cls K)
                (init_dict (num rho) (num T) cos_theta B (num Z)))
             eq_refl).
  do 3 f_equal.
  apply (elementwise_ext (fun _ => True)); [|apply all_frequencies_True].
  intros v _. now apply jnu_bremss_at_negative_T.
Qed.

Lemma negative_temperature_witness :
  invoke (Object (RL.cls codata2018)
            (init_dict (num 1e18) (num (-1e10)) (num 0) (num 0) (num 1)))
         "jnu_bremss" [PyNum (to_ndarray (Many [1e9; 1e15]))]
  = (Ok (PyNum (elementwise (fun _ => NaN) (Many [1e9; 1e15]))),
     Object (RL.cls codata2018)
       (init_dict (num 1e18) (num (-1e10)) (num 0) (num 0) (num 1))).
Proof.
  refine (proj2 (negative_temperature codata2018 1e18 (-1e10) (num 0) (num 0) 1
                   (Many [1e9; 1e15]) physical_codata2018 _)).
  lra.
Defined.

(** X15.  The signs of [rho] and [Z] are not checked and do not matter:
    the model built from [- rho] and [- Z] returns the emissivities of the
    model built from [rho] and [Z]; with [rho = 0] every emissivity is 0. *)
Theorem density_and_charge_signs K rho T cos_theta B Z nu obj1 obj2 :
  physical K -> 0 < T ->
  instantiate (RL.cls K) [num rho; num T; cos_theta; B; num Z] = Ok obj1 ->
  instantiate (RL.cls K) [num (- rho); num T; cos_theta; B; num (- Z)]
  = Ok obj2 ->
  fst (invoke obj2 "jnu_bremss" [PyNum (to_ndarray nu)])
  = fst (invoke obj1 "jnu_bremss" [PyNum (to_ndarray nu)])
  /\ (rho = 0 ->
      invoke obj1 "jnu_bremss" [PyNum (to_ndarray nu)]
      = (Ok (PyNum (elementwise (fun _ => Num 0) nu)), obj1)).
Proof.
  intros HK HT Hn1 Hn2.
  rewrite (jnu_bremss_call K rho T cos_theta B Z nu obj1 Hn1).
  rewrite (jnu_bremss_call K (- rho) T cos_theta B (- Z) nu obj2 Hn2).
  split.
  - simpl. do 2 f_equal.
    apply (elementwise_ext (fun _ => True)); [|apply all_frequencies_True].
    intros v _. rewrite !(jnu_bremss_at_Num K HK) by assumption. f_equal.
    unfold spec_bremsstrahlung_emissivity, spec_n_e, Rdiv. ring.
  - intros ->. do 3 f_equal.
    apply (elementwise_ext (fun _ => True)); [|apply all_frequencies_True].
    intros v _. rewrite (jnu_bremss_at_Num K HK) by assumption. f_equal.
    unfold spec_bremsstrahlung_emissivity, spec_n_e, Rdiv. ring.
Qed.

Lemma density_and_charge_signs_witness :
  fst (invoke (Object (RL.cls codata2018)
                 (init_dict (num (- (1e18))) (num 1e10) (num 0) (num 0)
                            (num (- (1)))))
              "jnu_bremss" [PyNum (to_ndarray (One 1e15))])
  = fst (invoke (Object (RL.cls codata2018)
                   (init_dict (num 1e18) (num 1e10) (num 0) (num 0) (num 1)))
                "jnu_bremss" [PyNum (to_ndarray (One 1e15))]).
Proof.
  refine (proj1 (density_and_charge_signs codata2018 1e18 1e10 (num 0) (num 0)
                   1 (One 1e15) _ _ physical_codata2018 _ eq_refl eq_refl)).
  lra.
Defined.

(** X16.  For a valid model ([rho], [T], [Z] positive) the emissivity
    [jnu_bremss] returns is never negative, equals
    K e^6 T^(1/2) Z^2 n_e n_i at frequency 0, does not exceed that value at
    any frequency [nu >= 0], and tends to 0 as the frequency tends to
    infinity. *)
Theorem jnu_bremss_bounds K rho T cos_theta B Z obj :
  physical K -> 0 < rho -> 0 < T -> 0 < Z ->
  instantiate (RL.cls K) [num rho; num T; cos_theta; B; num Z] = Ok obj ->
  (forall nu, exists j,
      invoke obj "jnu_bremss" [num nu] = (Ok (num j), obj)
      /\ 0 <= j
      /\ (nu = 0 -> j = bremss_prefactor K rho T Z)
      /\ (0 <= nu -> j <= bremss_prefactor K rho T Z))
  /\ (forall eps, 0 < eps ->
        exists M, forall nu, M < nu -> exists j,
          invoke obj "jnu_bremss" [num nu] = (Ok (num j), obj) /\ j < eps).
Proof.
  intros HK Hrho HT HZ Hnew.
  assert (HP : 0 < bremss_prefactor K rho T Z)
    by (apply bremss_prefactor_pos; [assumption | lra | assumption | lra]).
  assert (Hh : 0 < c_h K) by (destruct HK as (Hh & _); exact Hh).
  assert (Hk : 0 < c_k_B K) by (destruct HK as (_ & Hk & _); exact Hk).
  assert (HkT : 0 < c_k_B K * T) by (apply Rmult_lt_0_compat; assumption).
  assert (Hcall : forall nu,
            invoke obj "jnu_bremss" [num nu]
            = (Ok (num (bremss_prefactor K rho T Z
                        * exp (- (c_h K * nu) / (c_k_B K * T)))), obj)).
  { intros nu. rewrite <- bremss_split.
    now apply (jnu_bremss_call_real K HK rho T cos_theta B Z nu obj). }
  split.
  - intros nu. eexists. split; [apply Hcall|]. split; [|split].
    + apply Rlt_le, Rmult_lt_0_compat; [assumption | apply exp_pos].
    + intros ->. replace (- (c_h K * 0) / (c_k_B K * T)) with 0
        by (field; lra).
      rewrite exp_0. ring.
    + intros Hnu.
      assert (Hx : - (c_h K * nu) / (c_k_B K * T) <= 0).
      { assert (0 <= c_h K * nu / (c_k_B K * T)).
        { apply Rmult_le_pos; [apply Rmult_le_pos; lra|].
          apply Rlt_le, Rinv_0_lt_compat; assumption. }
        replace (- (c_h K * nu) / (c_k_B K * T))
          with (- (c_h K * nu / (c_k_B K * T))) by (field; lra).
        lra. }
      assert (He : exp (- (c_h K * nu) / (c_k_B K * T)) <= 1).
      { destruct Hx as [Hx | Hx].
        - apply Rlt_le. rewrite <- exp_0. now apply exp_increasing.
        - rewrite Hx, exp_0. lra. }
      rewrite <- (Rmult_1_r (bremss_prefactor K rho T Z)) at 2.
      apply Rmult_le_compat_l; lra.
  - intros eps Heps.
    set (P := bremss_prefactor K rho T Z) in *.
    set (a := c_h K / (c_k_B K * T)).
    assert (Ha : 0 < a) by (apply Rdiv_lt_0_compat; assumption).
    exists (P / (a * eps)).
    assert (HM : 0 < P / (a * eps)).
    { apply Rdiv_lt_0_compat; [assumption | now apply Rmult_lt_0_compat]. }
    intros nu Hnu. eexists. split; [apply Hcall|].
    replace (- (c_h K * nu) / (c_k_B K * T)) with (- (a * nu))
      by (unfold a; field; lra).
    assert (Hx : 0 < a * nu) by (apply Rmult_lt_0_compat; lra).
    pose proof (exp_ineq1 (a * nu)) as He.
    rewrite exp_Ropp.
    apply Rlt_trans with (P * / (a * nu)).
    + apply Rmult_lt_compat_l; [assumption|].
      apply Rinv_lt_contravar; [|lra].
      apply Rmult_lt_0_compat; lra.
    + apply Rmult_lt_reg_r with (a * nu / eps).
      { apply Rdiv_lt_0_compat; assumption. }
      replace (P * / (a * nu) * (a * nu / eps)) with (P / eps) by (field; lra).
      replace (eps * (a * nu / eps)) with (a * nu) by (field; lra).
      replace (P / eps) with (a * (P / (a * eps))) by (field; lra).
      now apply Rmult_lt_compat_l.
Qed.

Lemma jnu_bremss_bounds_witness :
  exists j,
    invoke (Object (RL.cls codata2018)
                   (init_dict (num 1e18) (num 1e10) (num 0) (num 0) (num 1)))
           "jnu_bremss" [num 1e15]
    = (Ok (num j),
       Object (RL.cls codata2018)
              (init_dict (num 1e18) (num 1e10) (num 0) (num 0) (num 1)))
    /\ 0 <= j
    /\ (1e15 = 0 -> j = bremss_prefactor codata2018 1e18 1e10 1)
    /\ (0 <= 1e15 -> j <= bremss_prefactor codata2018 1e18 1e10 1).
Proof.
  refine (proj1 (jnu_bremss_bounds codata2018 1e18 1e10 (num 0) (num 0) 1 _
                   physical_codata2018 _ _ _ eq_refl) 1e15); lra.
Defined.

(** X17.  Raising the frequency by [d] multiplies the emissivity
    [jnu_bremss] returns by exp(- h d / (k_B T)): every step of k_B T / h in
    frequency divides it by e. *)
Theorem jnu_bremss_e_folding K rho T cos_theta B Z nu d obj :
  physical K -> 0 < T ->
  instantiate (RL.cls K) [num rho; num T; cos_theta; B; num Z] = Ok obj ->
  exists j0 j1 j2,
    invoke obj "jnu_bremss" [num nu] = (Ok (num j0), obj)
    /\ invoke obj "jnu_bremss" [num (nu + d)] = (Ok (num j1), obj)
    /\ invoke obj "jnu_bremss" [num (nu + c_k_B K * T / c_h K)]
       = (Ok (num j2), obj)
    /\ j1 = j0 * exp (- (c_h K * d) / (c_k_B K * T))
    /\ j2 = j0 / exp 1.
Proof.
  intros HK HT Hnew.
  assert (Hh : 0 < c_h K) by (destruct HK as (Hh & _); exact Hh).
  assert (Hk : 0 < c_k_B K) by (destruct HK as (_ & Hk & _); exact Hk).
  do 3 eexists.
  split; [now apply (jnu_bremss_call_real K HK rho T cos_theta B Z nu obj)|].
  split; [now apply (jnu_bremss_call_real K HK rho T cos_theta B Z (nu + d) obj)|].
  split; [now apply (jnu_bremss_call_real K HK rho T cos_theta B Z
                       (nu + c_k_B K * T / c_h K) obj)|].
  rewrite !bremss_split. split.
  - rewrite Rmult_assoc, <- exp_plus. do 2 f_equal. field. lra.
  - unfold Rdiv at 3. rewrite <- exp_Ropp, Rmult_assoc, <- exp_plus.
    do 2 f_equal. field. split; lra.
Qed.

Lemma jnu_bremss_e_folding_witness :
  exists j0 j1 j2,
    invoke (Object (RL.cls codata2018)
                   (init_dict (num 1e18) (num 1e10) (num 0) (num 0) (num 1)))
           "jnu_bremss" [num 1e15]
    = (Ok (num j0),
       Object (RL.cls codata2018)
              (init_dict (num 1e18) (num 1e10) (num 0) (num 0) (num 1)))
    /\ invoke (Object (RL.cls codata2018)
                      (init_dict (num 1e18) (num 1e10) (num 0) (num 0) (num 1)))
              "jnu_bremss" [num (1e15 + 1e20)]
       = (Ok (num j1),
          Object (RL.cls codata2018)
                 (init_dict (num 1e18) (num 1e10) (num 0) (num 0) (num 1)))
    /\ invoke (Object (RL.cls codata2018)
                      (init_dict (num 1e18) (num 1e10) (num 0) (num 0) (num 1)))
              "jnu_bremss"
              [num (1e15 + c_k_B codata2018 * 1e10 / c_h codata2018)]
       = (Ok (num j2),
          Object (RL.cls codata2018)
                 (init_dict (num 1e18) (num 1e10) (num 0) (num 0) (num 1)))
    /\ j1 = j0 * exp (- (c_h codata2018 * 1e20) / (c_k_B codata2018 * 1e10))
    /\ j2 = j0 / exp 1.
Proof.
  apply (jnu_bremss_e_folding codata2018 1e18 1e10 (num 0) (num 0) 1 1e15 1e20).
  - exact physical_codata2018.
  - lra.
  - reflexivity.
Defined.

(** ** Temperatures given as an array *)

Lemma binop_raise op (a b : expr) self u v e :
  a self = Ok (PyNum u) -> b self = Ok (PyNum v) ->
  broadcast2 op u v = Raise e ->
  binop op a b self = Raise e.
Proof. intros Ha Hb Hw. unfold binop. rewrite Ha, Hb. simpl. now rewrite Hw. Qed.

Lemma bind_raise {A} (e : expr) (k : pyobj -> Py A) self ex :
  e self = Raise ex -> bind (eval e) k self = (Raise ex, self).
Proof. intros He. unfold bind, eval. now rewrite He. Qed.

Lemma broadcast2_mismatch op l1 l2 :
  length l1 <> length l2 -> length l1 <> 1%nat -> length l2 <> 1%nat ->
  broadcast2 op (Array l1) (Array l2) = Raise ValueError.
Proof.
  intros Hne H1 H2. simpl.
  destruct (Nat.eqb_spec (length l1) (length l2)) as [Heq | _]; [contradiction|].
  destruct l1 as [|a [|a' l1]]; destruct l2 as [|b [|b' l2]];
    simpl in *; try reflexivity; contradiction.
Qed.

Lemma Bnu_pairs K (self : attrs) (l : list (R * R)) :
  self !! "T" = Some (PyNum (Array (map (fun p => Num (fst p)) l))) ->
  Radiating.Bnu K (PyNum (Array (map (fun p => Num (snd p)) l))) self
  = (Ok (PyNum (Array (map (fun p => Bnu_at K (fst p) (snd p)) l))), self).
Proof.
  intros HT. unfold Radiating.Bnu, Bnu_at. py_stmt.
Qed.

(** X18.  The temperature may be an array as long as the frequency array:
    [Bnu] then pairs them, element [i] of the result being the value [Bnu]
    returns at the frequency [nu_i] on the model built with the temperature
    [T_i]. *)
Theorem Bnu_temperature_array K cls rho cos_theta B Z (l : list (R * R)) obj :
  cls = Dummy.cls K \/ cls = RL.cls K ->
  instantiate cls [rho; PyNum (Array (map (fun p => Num (fst p)) l));
                   cos_theta; B; Z] = Ok obj ->
  exists out,
    invoke obj "Bnu" [PyNum (Array (map (fun p => Num (snd p)) l))]
    = (Ok (PyNum (Array out)), obj)
    /\ length out = length l
    /\ (forall i T nu obj1,
          l !! i = Some (T, nu) ->
          instantiate cls [rho; num T; cos_theta; B; Z] = Ok obj1 ->
          exists b,
            out !! i = Some b
            /\ invoke obj1 "Bnu" [num nu] = (Ok (PyNum (Scalar b)), obj1)).
Proof.
  intros Hcls Hnew.
  exists (map (fun p => Bnu_at K (fst p) (snd p)) l). split; [|split].
  - rewrite (instantiate_concrete K cls _ _ _ _ _ obj Hcls Hnew).
    rewrite (invoke_Bnu K) by assumption.
    now rewrite (Bnu_pairs K) by apply init_dict_T.
  - apply length_map.
  - intros i T nu obj1 Hi Hnew1. exists (Bnu_at K T nu). split.
    + now rewrite lookup_map, Hi.
    + exact (Bnu_call K cls rho T cos_theta B Z (One nu) obj1 Hcls Hnew1).
Qed.

Lemma Bnu_temperature_array_witness :
  exists out,
    invoke (Object (Dummy.cls codata2018)
              (init_dict (num 1e18)
                 (PyNum (Array (map (fun p => Num (fst p))
                                    [(1e9, 1e12); (1e10, 1e15)])))
                 (num 0) (num 0) (num 1)))
           "Bnu" [PyNum (Array (map (fun p => Num (snd p))
                                    [(1e9, 1e12); (1e10, 1e15)]))]
    = (Ok (PyNum (Array out)),
       Object (Dummy.cls codata2018)
         (init_dict (num 1e18)
            (PyNum (Array (map (fun p => Num (fst p))
                               [(1e9, 1e12); (1e10, 1e15)])))
            (num 0) (num 0) (num 1)))
    /\ length out = length [(1e9, 1e12); (1e10, 1e15)].
Proof.
  destruct (Bnu_temperature_array codata2018 (Dummy.cls codata2018)
              (num 1e18) (num 0) (num 0) (num 1) [(1e9, 1e12); (1e10, 1e15)]
              _ (or_introl eq_refl) eq_refl) as (out & Hcall & Hlen & _).
  exists out. split; assumption.
Defined.

(** X19.  When the temperature is an array whose length differs from the
    length of the frequency array, neither length being 1, [Bnu] raises
    [ValueError] (the shapes do not broadcast) and leaves the instance as it
    was. *)
Theorem Bnu_shape_mismatch K cls rho Ts cos_theta B Z nus obj :
  length Ts <> length nus -> length Ts <> 1%nat -> length nus <> 1%nat ->
  cls = Dummy.cls K \/ cls = RL.cls K ->
  instantiate cls [rho; PyNum (Array Ts); cos_theta; B; Z] = Ok obj ->
  invoke obj "Bnu" [PyNum (Array nus)] = (Raise ValueError, obj).
Proof.
  intros Hne HTs Hnus Hcls Hnew.
  rewrite (instantiate_concrete K cls _ _ _ _ _ obj Hcls Hnew).
  rewrite (invoke_Bnu K) by assumption.
  assert (HT : init_dict rho (PyNum (Array Ts)) cos_theta B Z !! "T"
               = Some (PyNum (Array Ts))) by apply init_dict_T.
  unfold Radiating.Bnu.
  rewrite (bind_raise _ _ _ ValueError); [reflexivity|].
  eapply binop_raise; [py_expr | py_expr |].
  apply broadcast2_mismatch; rewrite ?length_map; auto.
Qed.

Lemma Bnu_shape_mismatch_witness :
  invoke (Object (Dummy.cls codata2018)
            (init_dict (num 1e18) (PyNum (Array [Num 1e9; Num 1e10]))
                       (num 0) (num 0) (num 1)))
         "Bnu" [PyNum (Array [Num 1e9; Num 1e12; Num 1e15])]
  = (Raise ValueError,
     Object (Dummy.cls codata2018)
       (init_dict (num 1e18) (PyNum (Array [Num 1e9; Num 1e10]))
                  (num 0) (num 0) (num 1))).
Proof.
  apply (Bnu_shape_mismatch codata2018 (Dummy.cls codata2018) (num 1e18)
           [Num 1e9; Num 1e10] (num 0) (num 0) (num 1)
           [Num 1e9; Num 1e12; Num 1e15]).
  - simpl. lia.
  - simpl. lia.
  - simpl. lia.
  - left; reflexivity.
  - reflexivity.
Defined.

(** * The scales of the introduction *)

Section IntroScales.
Variable K : constants.
Variable G : R.
Hypothesis Hc : 0 < c_c K.

Lemma r_g_Num M : Intro.r_g K G M = Num (G * M / c_c K ^ 2).
Proof.
  unfold Intro.r_g. rewrite xpow_Num. cbn [xmul].
  apply xdiv_Num. apply Rgt_not_eq, pow_lt, Hc.
Qed.

Lemma t_g_Num M : Intro.t_g K G M = Num (G * M / c_c K ^ 3).
Proof.
  unfold Intro.t_g. rewrite xpow_Num. cbn [xmul].
  apply xdiv_Num. apply Rgt_not_eq, pow_lt, Hc.
Qed.

Lemma kappa_es_Num : Intro.kappa_es = Num 0.4.
Proof. unfold Intro.kappa_es, Intro.X. simpl. f_equal. lra. Qed.

Lemma L_Edd_Num M :
  Intro.L_Edd K G M = Num (4 * PI * G * M * c_c K / 0.4).
Proof.
  unfold Intro.L_Edd. rewrite kappa_es_Num. cbn [xmul].
  apply xdiv_Num. lra.
Qed.
End IntroScales.

(** X20.  The gravitational radius is the light travel distance of the
    gravitational time, the Schwarzschild radius is 2 G M / c^2, and the
    time [t_ISCO] is 12 pi gravitational times, whatever the mass. *)
Theorem gravitational_scales K G M :
  0 < c_c K ->
  exists r t,
    Intro.r_g K G M = Num r /\ Intro.t_g K G M = Num t
    /\ r = c_c K * t
    /\ Intro.r_S K G M = Num (2 * G * M / c_c K ^ 2)
    /\ Intro.t_ISCO K G M = Num (12 * PI * t).
Proof.
  intros Hc. do 2 eexists.
  split; [now apply r_g_Num|]. split; [now apply t_g_Num|].
  split; [|split].
  - field. lra.
  - unfold Intro.r_S. rewrite r_g_Num by assumption. simpl. f_equal.
    field. lra.
  - unfold Intro.t_ISCO. rewrite r_g_Num by assumption. cbn [xmul].
    rewrite xdiv_Num by lra. f_equal. field. lra.
Qed.

Lemma gravitational_scales_witness :
  exists r t,
    Intro.r_g codata2018 6.6743e-8 8.22406323e39 = Num r
    /\ Intro.t_g codata2018 6.6743e-8 8.22406323e39 = Num t
    /\ r = c_c codata2018 * t
    /\ Intro.r_S codata2018 6.6743e-8 8.22406323e39
       = Num (2 * 6.6743e-8 * 8.22406323e39 / c_c codata2018 ^ 2)
    /\ Intro.t_ISCO codata2018 6.6743e-8 8.22406323e39 = Num (12 * PI * t).
Proof.
  apply (gravitational_scales codata2018 6.6743e-8 8.22406323e39).
  simpl. lra.
Defined.

(** X21.  The Eddington luminosity and accretion rate satisfy
    L_Edd = epsilon Mdot_Edd c^2 with epsilon = 0.1; with the opacity
    0.2 (1 + X) = 0.4 they are 10 pi G M c and 100 pi G M / c, both
    proportional to the mass. *)
Theorem Eddington_scales K G M :
  0 < c_c K ->
  exists L Mdot,
    Intro.L_Edd K G M = Num L /\ Intro.Mdot_Edd K G M = Num Mdot
    /\ L = Intro.epsilon * Mdot * c_c K ^ 2
    /\ L = 10 * PI * G * M * c_c K
    /\ Mdot = 100 * PI * G * M / c_c K.
Proof.
  intros Hc. do 2 eexists.
  split; [now apply L_Edd_Num|]. split.
  - unfold Intro.Mdot_Edd. rewrite L_Edd_Num by assumption.
    rewrite xpow_Num. cbn [xmul]. apply xdiv_Num.
    unfold Intro.epsilon.
    apply Rgt_not_eq, Rmult_lt_0_compat; [lra | apply pow_lt; assumption].
  - unfold Intro.epsilon.
    replace 0.4 with (2 / 5) by lra. replace 0.1 with (1 / 10) by lra.
    repeat split; field; lra.
Qed.

Lemma Eddington_scales_witness :
  exists L Mdot,
    Intro.L_Edd codata2018 6.6743e-8 8.22406323e39 = Num L
    /\ Intro.Mdot_Edd codata2018 6.6743e-8 8.22406323e39 = Num Mdot
    /\ L = Intro.epsilon * Mdot * c_c codata2018 ^ 2
    /\ L = 10 * PI * 6.6743e-8 * 8.22406323e39 * c_c codata2018
    /\ Mdot = 100 * PI * 6.6743e-8 * 8.22406323e39 / c_c codata2018.
Proof.
  apply (Eddington_scales codata2018 6.6743e-8 8.22406323e39).
  simpl. lra.
Defined.

(** X22.  The apparent size of the shadow is sqrt(27) G M / (c^2 D), and
    the shadow radius lies between 2.59 and 2.6 Schwarzschild radii. *)
Theorem shadow_size K G M D :
  0 < c_c K -> 0 < G * M -> D <> 0 ->
  Intro.size K G M D = Num (sqrt 27 * G * M / (c_c K ^ 2 * D))
  /\ exists rs rS,
       Intro.r_shadow K G M = Num rs /\ Intro.r_S K G M = Num rS
       /\ 2.59 * rS < rs < 2.6 * rS.
Proof.
  intros Hc HGM HD.
  assert (Hc2 : 0 < c_c K ^ 2) by (apply pow_lt; assumption).
  assert (Hs : Intro.r_shadow K G M = Num (sqrt 27 * (G * M / c_c K ^ 2))).
  { unfold Intro.r_shadow. rewrite r_g_Num by assumption.
    rewrite xsqrt_Num by lra. reflexivity. }
  split.
  - unfold Intro.size. rewrite Hs, xdiv_Num by assumption. f_equal.
    field. split; lra.
  - do 2 eexists. split; [exact Hs|]. split.
    + unfold Intro.r_S. rewrite r_g_Num by assumption. reflexivity.
    + assert (Hq : 0 < G * M / c_c K ^ 2) by now apply Rdiv_lt_0_compat.
      assert (H27 : 5.19 < sqrt 27 < 5.2).
      { split.
        - replace 5.19 with (sqrt (5.19 * 5.19)) by (apply sqrt_square; lra).
          apply sqrt_lt_1; lra.
        - replace 5.2 with (sqrt (5.2 * 5.2)) by (apply sqrt_square; lra).
          apply sqrt_lt_1; lra. }
      split; nra.
Qed.

Lemma shadow_size_witness :
  Intro.size codata2018 6.6743e-8 8.22406323e39 2.51235869e22
  = Num (sqrt 27 * 6.6743e-8 * 8.22406323e39
         / (c_c codata2018 ^ 2 * 2.51235869e22)).
Proof.
  refine (proj1 (shadow_size codata2018 6.6743e-8 8.22406323e39 2.51235869e22
                   _ _ _)); simpl; lra.
Defined.
